(** * Terminal-state reconciliation and the procedural store

    A shallow embedding of [src/store/ProceduralContext.tsx] (the reconciler
    [reconcileTerminalState], the registry writers and [unregisterNode]) and
    of [applyOverridesToPayload] from
    [src/components/KnowledgeInspectorNode.tsx].

    - A JavaScript object with optional fields is a record of [option]s:
      [None] is [undefined] or an absent key, which field reads and
      [JSON.stringify] do not tell apart.  The one place where the source
      tells them apart, the spread of a partial over a payload, has a type
      of its own ([PartialPayload]).
    - The registries, JS objects used as maps, are [gmap]s keyed by strings:
      the map holds the own properties.  The writers read [record[key]], which
      also finds the members a record inherits from [Object.prototype]
      ([constructor], [toString], ...): such a read is a [JS.Member].  This
      is modelled for the handle ids; node ids are taken not to be such
      names (see [nodeRecordOf]).
    - Generation ids and the version counter are integers; geometry is IEEE
      binary64, as in JavaScript.
    - A call that can raise a [TypeError] returns an [outcome].
    - [JSON.stringify(a) === JSON.stringify(b)] is the comparison of the
      values of the fields; the order in which an object lists its keys,
      which [JSON.stringify] follows, is not part of the model. *)

From Stdlib Require Import ZArith String List Bool Lia.
From Stdlib Require Import PrimFloat FloatOps SpecFloat.
From stdpp Require Import base option list gmap strings pretty.

Set Default Proof Using "Type".
#[local] Open Scope string_scope.
#[local] Set Warnings "-inexact-float".

(** ** JavaScript value conventions *)

Module JS.

(** Truthiness of an optional string: [undefined] and [''] are falsy. *)
Definition truthyStr (s : option string) : bool :=
  match s with
  | Some s => negb (String.eqb s "")
  | None => false
  end.

(** Truthiness of an optional integer: [undefined] and [0] are falsy. *)
Definition truthyNum (n : option Z) : bool :=
  match n with
  | Some n => negb (Z.eqb n 0)
  | None => false
  end.

(** Truthiness of an optional boolean. *)
Definition truthyBool (b : option bool) : bool :=
  match b with
  | Some true => true
  | _ => false
  end.

(** Truthiness of an optional object or array: only [undefined] is falsy. *)
Definition truthyObj {A} (o : option A) : bool :=
  match o with
  | Some _ => true
  | None => false
  end.

(** [a || b]: the first operand when it is truthy, else the second. *)
Definition or {A} (truthy : option A -> bool) (a b : option A) : option A :=
  if truthy a then a else b.

(** [a ?? b]: the first operand unless it is [undefined]. *)
Definition nullish {A} (a b : option A) : option A :=
  match a with
  | Some _ => a
  | None => b
  end.

(** [x === false] on an optional boolean. *)
Definition isFalse (b : option bool) : bool :=
  match b with
  | Some false => true
  | _ => false
  end.

(** [a < b] on optional integers; a comparison with [undefined] is false. *)
Definition ltNum (a b : option Z) : bool :=
  match a, b with
  | Some a, Some b => Z.ltb a b
  | _, _ => false
  end.

(** Truthiness of a number: [0], [-0] and [NaN] are falsy. *)
Definition truthyFloat (f : float) : bool :=
  negb (PrimFloat.is_zero f || PrimFloat.is_nan f).

(** [f || d] on an optional number. *)
Definition floatOr (f : option float) (d : float) : float :=
  match f with
  | Some v => if truthyFloat v then v else d
  | None => d
  end.

(** An object built by a literal or a spread inherits the members of
    [Object.prototype]: reading a key the object does not own gives the
    member of that name.  These are the names whose member is a function;
    the twelfth name, [__proto__], is an accessor that gives
    [Object.prototype] itself. *)
Definition prototypeFunctions : list string :=
  ["constructor"; "hasOwnProperty"; "isPrototypeOf"; "propertyIsEnumerable";
   "toLocaleString"; "toString"; "valueOf"; "__defineGetter__";
   "__defineSetter__"; "__lookupGetter__"; "__lookupSetter__"].

(** The keys under which [{}] has a member. *)
Definition inherited (key : string) : bool :=
  existsb (String.eqb key) prototypeFunctions || String.eqb key "__proto__".

(** The value of [record[key]]: an own property, a function inherited from
    [Object.prototype], [Object.prototype] itself, or [undefined]. *)
Inductive Member (V : Type) : Type :=
| Own (v : V)
| BuiltinFunction
| ObjectPrototype
| Undefined.
Arguments Own {V} v.
Arguments BuiltinFunction {V}.
Arguments ObjectPrototype {V}.
Arguments Undefined {V}.

(** [{}[key]]. *)
Definition fromPrototype {V} (key : string) : Member V :=
  if existsb (String.eqb key) prototypeFunctions then BuiltinFunction
  else if String.eqb key "__proto__" then ObjectPrototype
  else Undefined.

(** [record[key]].  A key written by a spread or under a computed name,
    [__proto__] too, is an own property. *)
Definition get {V} (record : gmap string V) (key : string) : Member V :=
  match record !! key with
  | Some v => Own v
  | None => fromPrototype key
  end.

(** [JSON.stringify(record[key])]: a function has no image ([undefined]),
    [Object.prototype] has no enumerable key. *)
Definition image {V} (stringify : V -> string) (m : Member V)
    : option string :=
  match m with
  | Own v => Some (stringify v)
  | ObjectPrototype => Some "{}"
  | BuiltinFunction | Undefined => None
  end.

End JS.

(** The result of a call that may raise a [TypeError]. *)
Inductive outcome (A : Type) : Type :=
| Returns (a : A)
| Throws.
Arguments Returns {A} a.
Arguments Throws {A}.

Definition obind {A B} (o : outcome A) (k : A -> outcome B) : outcome B :=
  match o with
  | Returns a => k a
  | Throws => Throws
  end.

Notation "x |> f" := (f x) (at level 45, left associativity, only parsing).

(** [JSON.stringify] on the types the store treats as opaque. *)
Class Stringify (A : Type) := stringify : A -> string.

(** An object without keys. *)
#[global] Instance Stringify_unit : Stringify unit := fun _ => "{}".

(** ** Layers *)

Module Coords.
(** Modelled from the spec: the coordinates of a layer (x, y, w, h), declared
    in [types.ts], which is not part of the sources. *)
Record t := mk { x : float; y : float; w : float; h : float }.
End Coords.

Module Transform.
(** Modelled from the spec: the transform record of a layer (scale x/y,
    rotation, offsets), declared in [types.ts], which is not part of the
    sources; [rotation] is optional, as the code reads it. *)
Record t := mk {
  scaleX : float;
  scaleY : float;
  offsetX : float;
  offsetY : float;
  rotation : option float }.
End Transform.

Module Layer.
#[local] Unset Elimination Schemes.
(** Modelled from the spec: the declaration of [TransformedLayer] in
    [types.ts] is not part of the sources; the fields are those of the
    spec's Layer (section 3) and those the code reads. *)
Inductive t := mk {
  id : string;
  name : string;
  type : string;
  isVisible : bool;
  opacity : float;
  coords : Coords.t;
  transform : Transform.t;
  children : option (list t) }.
End Layer.

Module LayerOverride.
(** Modelled from the spec: the declaration of [LayerOverride] in [types.ts]
    is not part of the sources; the fields are those of the spec's Override
    (section 3), with the optional ones as the code reads them. *)
Record t := mk {
  layerId : string;
  xOffset : float;
  yOffset : float;
  individualScale : option float;
  rotation : option float;
  citedRule : string }.
End LayerOverride.

Module Edge.
(** An edge of the node graph, a value of the [reactflow] library: the
    fields [getIncomingPayload] reads; a handle is a string, [null] or
    [undefined]. *)
Record t := mk {
  source : string;
  sourceHandle : option string;
  target : string;
  targetHandle : option string }.
End Edge.

(** ** [JSON.stringify] equality

    The writers suppress a write when [JSON.stringify] of the stored and of
    the new value are the same string.  On numbers the image is [null] for
    [NaN] and the infinities and ["0"] for both zeros; every other number has
    an image of its own. *)

Definition jsonNum (f : float) : option spec_float :=
  match Prim2SF f with
  | S754_nan | S754_infinity _ => None
  | S754_zero _ => Some (S754_zero false)
  | S754_finite s m e => Some (S754_finite s m e)
  end.

Definition specFloatEqb (a b : spec_float) : bool :=
  match a, b with
  | S754_zero s, S754_zero s' => Bool.eqb s s'
  | S754_infinity s, S754_infinity s' => Bool.eqb s s'
  | S754_nan, S754_nan => true
  | S754_finite s m e, S754_finite s' m' e' =>
      Bool.eqb s s' && Pos.eqb m m' && Z.eqb e e'
  | _, _ => false
  end.

(** Equality of the images of two optional values: an [undefined] field is
    left out of the image. *)
Definition optJsonEqb {A} (eqb : A -> A -> bool) (a b : option A) : bool :=
  match a, b with
  | Some x, Some y => eqb x y
  | None, None => true
  | _, _ => false
  end.

Definition numJsonEqb (a b : float) : bool :=
  optJsonEqb specFloatEqb (jsonNum a) (jsonNum b).

Fixpoint listJsonEqb {A} (eqb : A -> A -> bool) (xs ys : list A) : bool :=
  match xs, ys with
  | [], [] => true
  | x :: xs', y :: ys' => eqb x y && listJsonEqb eqb xs' ys'
  | _, _ => false
  end.

Definition coordsJsonEqb (a b : Coords.t) : bool :=
  numJsonEqb (Coords.x a) (Coords.x b)
  && numJsonEqb (Coords.y a) (Coords.y b)
  && numJsonEqb (Coords.w a) (Coords.w b)
  && numJsonEqb (Coords.h a) (Coords.h b).

Definition transformJsonEqb (a b : Transform.t) : bool :=
  numJsonEqb (Transform.scaleX a) (Transform.scaleX b)
  && numJsonEqb (Transform.scaleY a) (Transform.scaleY b)
  && numJsonEqb (Transform.offsetX a) (Transform.offsetX b)
  && numJsonEqb (Transform.offsetY a) (Transform.offsetY b)
  && optJsonEqb numJsonEqb (Transform.rotation a) (Transform.rotation b).

Fixpoint layerJsonEqb (a b : Layer.t) {struct a} : bool :=
  match a, b with
  | Layer.mk i n t v o c tr ch, Layer.mk i' n' t' v' o' c' tr' ch' =>
      String.eqb i i' && String.eqb n n' && String.eqb t t'
      && Bool.eqb v v' && numJsonEqb o o'
      && coordsJsonEqb c c' && transformJsonEqb tr tr'
      && match ch, ch' with
         | Some cs, Some cs' =>
             (fix go (xs ys : list Layer.t) {struct xs} : bool :=
                match xs, ys with
                | [], [] => true
                | x :: xs', y :: ys' => layerJsonEqb x y && go xs' ys'
                | _, _ => false
                end) cs cs'
         | None, None => true
         | _, _ => false
         end
  end.

(** ** Applying overrides to a layer tree *)

(** The function mapped over [layers] by [deepUpdate]. *)
Fixpoint updateLayer (overrides : list LayerOverride.t) (layer : Layer.t)
    : Layer.t :=
  match layer with
  | Layer.mk i n t v o c tr ch =>
      let override :=
        List.find (fun o => String.eqb (LayerOverride.layerId o) i) overrides in
      let ch' :=
        match ch with
        | Some cs => Some (List.map (updateLayer overrides) cs)
        | None => None
        end in
      match override with
      | Some ov =>
          let newX := PrimFloat.add (Coords.x c) (LayerOverride.xOffset ov) in
          let newY := PrimFloat.add (Coords.y c) (LayerOverride.yOffset ov) in
          let scaleMult :=
            JS.floatOr (LayerOverride.individualScale ov) 1%float in
          Layer.mk i n t v o
            (Coords.mk newX newY
               (PrimFloat.mul (Coords.w c) scaleMult)
               (PrimFloat.mul (Coords.h c) scaleMult))
            (Transform.mk
               (PrimFloat.mul (Transform.scaleX tr) scaleMult)
               (PrimFloat.mul (Transform.scaleY tr) scaleMult)
               newX newY
               (Some (PrimFloat.add
                        (JS.floatOr (Transform.rotation tr) 0%float)
                        (JS.floatOr (LayerOverride.rotation ov) 0%float))))
            ch'
      | None => Layer.mk i n t v o c tr ch'
      end
  end.

Definition deepUpdate (overrides : list LayerOverride.t)
    (layers : list Layer.t) : list Layer.t :=
  List.map (updateLayer overrides) layers.

(** The ids of a layer tree, with its nesting. *)
#[local] Unset Elimination Schemes.
Inductive IdTree := IdNode (i : string) (kids : option (list IdTree)).

Fixpoint idTree (l : Layer.t) : IdTree :=
  match l with
  | Layer.mk i _ _ _ _ _ _ ch =>
      IdNode i match ch with
               | Some cs => Some (List.map idTree cs)
               | None => None
               end
  end.
#[local] Set Elimination Schemes.

(** Every layer of a tree, the layer itself first, then its descendants. *)
Fixpoint subLayers (l : Layer.t) : list Layer.t :=
  match l with
  | Layer.mk _ _ _ _ _ _ _ ch =>
      l :: match ch with
           | Some cs => List.flat_map subLayers cs
           | None => []
           end
  end.

Definition allLayers (ls : list Layer.t) : list Layer.t :=
  List.flat_map subLayers ls.

Section Store.

(** The geometry record [metrics] and the values of the scalar registries are
    declared outside the sources; the store only copies them and compares
    their [JSON.stringify] images. *)
Context {Metrics Psd TemplateMetadata LayoutStrategy KnowledgeContext : Type}.
Context {ContextRest : Type}.
Context `{!Stringify Metrics, !Stringify TemplateMetadata,
          !Stringify LayoutStrategy, !Stringify KnowledgeContext,
          !Stringify ContextRest}.

(** Modelled from the spec: the declaration of [TransformedPayload] in
    [types.ts] is not part of the sources; the fields are those of the spec's
    Artifact (section 3) and [sourceContainer], which [updatePayload] reads.
    Every field is optional at run time: producers write partial objects. *)
Record TransformedPayload := mkPayload {
  status : option string;
  sourceContainer : option string;
  targetContainer : option string;
  metrics : option Metrics;
  layers : option (list Layer.t);
  requiresGeneration : option bool;
  previewUrl : option string;
  isConfirmed : option bool;
  isTransient : option bool;
  isSynthesizing : option bool;
  sourceReference : option string;
  generationId : option Z;
  generationAllowed : option bool;
  isPolished : option bool;
  isMandatory : option bool;
  directives : option (list string) }.

(** Field updates, the [{...p, field: v}] of the source. *)
Definition set_status v (p : TransformedPayload) :=
  let 'mkPayload _ b c d e f g h i j k l m n o q := p in
  mkPayload v b c d e f g h i j k l m n o q.
Definition set_sourceContainer v (p : TransformedPayload) :=
  let 'mkPayload a _ c d e f g h i j k l m n o q := p in
  mkPayload a v c d e f g h i j k l m n o q.
Definition set_targetContainer v (p : TransformedPayload) :=
  let 'mkPayload a b _ d e f g h i j k l m n o q := p in
  mkPayload a b v d e f g h i j k l m n o q.
Definition set_metrics v (p : TransformedPayload) :=
  let 'mkPayload a b c _ e f g h i j k l m n o q := p in
  mkPayload a b c v e f g h i j k l m n o q.
Definition set_layers v (p : TransformedPayload) :=
  let 'mkPayload a b c d _ f g h i j k l m n o q := p in
  mkPayload a b c d v f g h i j k l m n o q.
Definition set_requiresGeneration v (p : TransformedPayload) :=
  let 'mkPayload a b c d e _ g h i j k l m n o q := p in
  mkPayload a b c d e v g h i j k l m n o q.
Definition set_previewUrl v (p : TransformedPayload) :=
  let 'mkPayload a b c d e f _ h i j k l m n o q := p in
  mkPayload a b c d e f v h i j k l m n o q.
Definition set_isConfirmed v (p : TransformedPayload) :=
  let 'mkPayload a b c d e f g _ i j k l m n o q := p in
  mkPayload a b c d e f g v i j k l m n o q.
Definition set_isTransient v (p : TransformedPayload) :=
  let 'mkPayload a b c d e f g h _ j k l m n o q := p in
  mkPayload a b c d e f g h v j k l m n o q.
Definition set_isSynthesizing v (p : TransformedPayload) :=
  let 'mkPayload a b c d e f g h i _ k l m n o q := p in
  mkPayload a b c d e f g h i v k l m n o q.
Definition set_sourceReference v (p : TransformedPayload) :=
  let 'mkPayload a b c d e f g h i j _ l m n o q := p in
  mkPayload a b c d e f g h i j v l m n o q.
Definition set_generationId v (p : TransformedPayload) :=
  let 'mkPayload a b c d e f g h i j k _ m n o q := p in
  mkPayload a b c d e f g h i j k v m n o q.
Definition set_generationAllowed v (p : TransformedPayload) :=
  let 'mkPayload a b c d e f g h i j k l _ n o q := p in
  mkPayload a b c d e f g h i j k l v n o q.
Definition set_isPolished v (p : TransformedPayload) :=
  let 'mkPayload a b c d e f g h i j k l m _ o q := p in
  mkPayload a b c d e f g h i j k l m v o q.
Definition set_isMandatory v (p : TransformedPayload) :=
  let 'mkPayload a b c d e f g h i j k l m n _ q := p in
  mkPayload a b c d e f g h i j k l m n v q.
Definition set_directives v (p : TransformedPayload) :=
  let 'mkPayload a b c d e f g h i j k l m n o _ := p in
  mkPayload a b c d e f g h i j k l m n o v.

(** ** The reconciler *)

(** The predicate of the [layers.filter] of the hard stop:
    [l.type !== 'generative' || (l.id && !l.id.startsWith('gen-layer-'))]. *)
Definition keepLayer (l : Layer.t) : bool :=
  negb (String.eqb (Layer.type l) "generative")
  || (negb (String.eqb (Layer.id l) "")
      && negb (String.prefix "gen-layer-" (Layer.id l))).

(** [incomingPayload.directives?.includes('MANDATORY_GEN_FILL')]. *)
Definition hasMandatoryDirective (incomingPayload : TransformedPayload) : bool :=
  match directives incomingPayload with
  | Some ds => existsb (String.eqb "MANDATORY_GEN_FILL") ds
  | None => false
  end.

Definition isForced (incomingPayload : TransformedPayload) : bool :=
  JS.truthyBool (isMandatory incomingPayload)
  || hasMandatoryDirective incomingPayload.

(** The stale guard: the stored payload when
    [currentPayload?.generationId && incomingPayload.generationId &&
     incomingPayload.generationId < currentPayload.generationId]. *)
Definition staleGuard (incomingPayload : TransformedPayload)
    (currentPayload : option TransformedPayload) : option TransformedPayload :=
  match currentPayload with
  | Some c =>
      if JS.truthyNum (generationId c)
         && JS.truthyNum (generationId incomingPayload)
         && JS.ltNum (generationId incomingPayload) (generationId c)
      then Some c else None
  | None => None
  end.

Definition reconcileTerminalState (incomingPayload : TransformedPayload)
    (currentPayload : option TransformedPayload) : outcome TransformedPayload :=
  (* 0. generative logic gate: hard stop *)
  if JS.isFalse (generationAllowed incomingPayload) then
    match layers incomingPayload with
    | None => Throws
    | Some ls =>
        Returns (incomingPayload
          |> set_previewUrl None
          |> set_isConfirmed (Some false)
          |> set_isTransient (Some false)
          |> set_isSynthesizing (Some false)
          |> set_requiresGeneration (Some false)
          |> set_metrics (metrics incomingPayload)
          |> set_layers (Some (List.filter keepLayer ls)))
    end
  (* mandatory auto-confirmation *)
  else if isForced incomingPayload
          && JS.truthyBool (requiresGeneration incomingPayload) then
    Returns (incomingPayload
      |> set_status (Some "success")
      |> set_isConfirmed (Some true)
      |> set_isTransient (Some false)
      |> set_isSynthesizing (isSynthesizing incomingPayload)
      |> set_previewUrl
           (JS.or JS.truthyStr (previewUrl incomingPayload)
                  (currentPayload ≫= previewUrl))
      |> set_sourceReference
           (JS.or JS.truthyStr (sourceReference incomingPayload)
                  (currentPayload ≫= sourceReference))
      |> set_generationId
           (JS.or JS.truthyNum (generationId incomingPayload)
                  (currentPayload ≫= generationId)))
  (* 1. stale guard *)
  else if staleGuard incomingPayload currentPayload is Some c then
    Returns c
  (* 2. sanitation *)
  else if bool_decide (status incomingPayload = Some "idle") then
    Returns (incomingPayload
      |> set_previewUrl None
      |> set_isConfirmed (Some false)
      |> set_isTransient (Some false)
      |> set_isSynthesizing (Some false))
  (* 3. flush phase *)
  else if JS.truthyBool (isSynthesizing incomingPayload) then
    Returns (default incomingPayload currentPayload
      |> set_isSynthesizing (Some true)
      |> set_previewUrl (currentPayload ≫= previewUrl)
      |> set_sourceReference
           (JS.or JS.truthyStr (sourceReference incomingPayload)
                  (currentPayload ≫= sourceReference))
      |> set_targetContainer
           (JS.or JS.truthyStr
              (JS.or JS.truthyStr (targetContainer incomingPayload)
                     (currentPayload ≫= targetContainer))
              (Some ""))
      |> set_metrics
           (JS.or JS.truthyObj (metrics incomingPayload)
                  (currentPayload ≫= metrics))
      |> set_generationId (currentPayload ≫= generationId)
      |> set_generationAllowed (Some true))
  else
    (* 4. refinement persistence *)
    let isConfirmed0 :=
      JS.nullish (JS.nullish (isConfirmed incomingPayload)
                             (currentPayload ≫= isConfirmed))
                 (Some false) in
    let isConfirmed1 :=
      if JS.truthyBool (isTransient incomingPayload) then Some false
      else isConfirmed0 in
    (* 5. geometric preservation *)
    if negb (JS.truthyNum (generationId incomingPayload))
       && JS.truthyNum (currentPayload ≫= generationId) then
      Returns (incomingPayload
        |> set_previewUrl (currentPayload ≫= previewUrl)
        |> set_generationId (currentPayload ≫= generationId)
        |> set_isSynthesizing (currentPayload ≫= isSynthesizing)
        |> set_isConfirmed (currentPayload ≫= isConfirmed)
        |> set_isTransient (currentPayload ≫= isTransient)
        |> set_sourceReference
             (JS.or JS.truthyStr (currentPayload ≫= sourceReference)
                    (sourceReference incomingPayload))
        |> set_generationAllowed (Some true))
    else
      (* 6. final construction *)
      Returns (incomingPayload
        |> set_isConfirmed isConfirmed1
        |> set_sourceReference
             (JS.or JS.truthyStr (sourceReference incomingPayload)
                    (currentPayload ≫= sourceReference))
        |> set_generationId
             (JS.or JS.truthyNum (generationId incomingPayload)
                    (currentPayload ≫= generationId))
        |> set_generationAllowed (Some true)).

(** [applyOverridesToPayload]; [payload.layers.map] raises on a payload
    without layers. *)
Definition applyOverridesToPayload (payload : TransformedPayload)
    (overrides : list LayerOverride.t) : outcome TransformedPayload :=
  match layers payload with
  | Some ls =>
      Returns (payload
        |> set_layers (Some (deepUpdate overrides ls))
        |> set_isPolished (Some true))
  | None => Throws
  end.

(** [JSON.stringify(a) === JSON.stringify(b)] on payloads: the comparison of
    the images of the fields, an [undefined] field having no image. *)
Definition payloadJsonEqb (a b : TransformedPayload) : bool :=
  optJsonEqb String.eqb (status a) (status b)
  && optJsonEqb String.eqb (sourceContainer a) (sourceContainer b)
  && optJsonEqb String.eqb (targetContainer a) (targetContainer b)
  && optJsonEqb (fun x y => String.eqb (stringify x) (stringify y))
       (metrics a) (metrics b)
  && optJsonEqb (listJsonEqb layerJsonEqb) (layers a) (layers b)
  && optJsonEqb Bool.eqb (requiresGeneration a) (requiresGeneration b)
  && optJsonEqb String.eqb (previewUrl a) (previewUrl b)
  && optJsonEqb Bool.eqb (isConfirmed a) (isConfirmed b)
  && optJsonEqb Bool.eqb (isTransient a) (isTransient b)
  && optJsonEqb Bool.eqb (isSynthesizing a) (isSynthesizing b)
  && optJsonEqb String.eqb (sourceReference a) (sourceReference b)
  && optJsonEqb Z.eqb (generationId a) (generationId b)
  && optJsonEqb Bool.eqb (generationAllowed a) (generationAllowed b)
  && optJsonEqb Bool.eqb (isPolished a) (isPolished b)
  && optJsonEqb Bool.eqb (isMandatory a) (isMandatory b)
  && optJsonEqb (listJsonEqb String.eqb) (directives a) (directives b).

(** [Partial<TransformedPayload>]: a key is absent ([None]), present with the
    value [undefined] ([Some None]) or present with a value. *)
Record PartialPayload := mkPartial {
  p_status : option (option string);
  p_sourceContainer : option (option string);
  p_targetContainer : option (option string);
  p_metrics : option (option Metrics);
  p_layers : option (option (list Layer.t));
  p_requiresGeneration : option (option bool);
  p_previewUrl : option (option string);
  p_isConfirmed : option (option bool);
  p_isTransient : option (option bool);
  p_isSynthesizing : option (option bool);
  p_sourceReference : option (option string);
  p_generationId : option (option Z);
  p_generationAllowed : option (option bool);
  p_isPolished : option (option bool);
  p_isMandatory : option (option bool);
  p_directives : option (option (list string)) }.

(** A key of the spread [{...base, ...partial}]: the partial's when it has
    the key, even with the value [undefined]. *)
Definition spreadKey {A} (partial : option (option A)) (base : option A)
    : option A :=
  match partial with
  | Some v => v
  | None => base
  end.

(** [{ ...currentPayload, ...partial }]. *)
Definition spreadPartial (currentPayload : TransformedPayload)
    (partial : PartialPayload) : TransformedPayload :=
  mkPayload
    (spreadKey (p_status partial) (status currentPayload))
    (spreadKey (p_sourceContainer partial) (sourceContainer currentPayload))
    (spreadKey (p_targetContainer partial) (targetContainer currentPayload))
    (spreadKey (p_metrics partial) (metrics currentPayload))
    (spreadKey (p_layers partial) (layers currentPayload))
    (spreadKey (p_requiresGeneration partial)
       (requiresGeneration currentPayload))
    (spreadKey (p_previewUrl partial) (previewUrl currentPayload))
    (spreadKey (p_isConfirmed partial) (isConfirmed currentPayload))
    (spreadKey (p_isTransient partial) (isTransient currentPayload))
    (spreadKey (p_isSynthesizing partial) (isSynthesizing currentPayload))
    (spreadKey (p_sourceReference partial) (sourceReference currentPayload))
    (spreadKey (p_generationId partial) (generationId currentPayload))
    (spreadKey (p_generationAllowed partial)
       (generationAllowed currentPayload))
    (spreadKey (p_isPolished partial) (isPolished currentPayload))
    (spreadKey (p_isMandatory partial) (isMandatory currentPayload))
    (spreadKey (p_directives partial) (directives currentPayload)).

(** [partial as TransformedPayload]: the same object, read as a payload. *)
Definition asPayload (partial : PartialPayload) : TransformedPayload :=
  mkPayload
    (mjoin (p_status partial)) (mjoin (p_sourceContainer partial))
    (mjoin (p_targetContainer partial)) (mjoin (p_metrics partial))
    (mjoin (p_layers partial)) (mjoin (p_requiresGeneration partial))
    (mjoin (p_previewUrl partial)) (mjoin (p_isConfirmed partial))
    (mjoin (p_isTransient partial)) (mjoin (p_isSynthesizing partial))
    (mjoin (p_sourceReference partial)) (mjoin (p_generationId partial))
    (mjoin (p_generationAllowed partial)) (mjoin (p_isPolished partial))
    (mjoin (p_isMandatory partial)) (mjoin (p_directives partial)).

(** ** Resolved contexts *)

(** Modelled from the spec: [MappingContext] and its [aiStrategy] are
    declared in [types.ts], which is not part of the sources; the fields are
    those [registerResolved] reads and writes, the others are [ctxRest]. *)
Record AiStrategy := mkAiStrategy {
  method : option string;
  generativePrompt : option string;
  aiGenerationAllowed : option bool }.

Record MappingContext := mkMappingContext {
  ctxGenerationAllowed : option bool;
  ctxAiStrategy : option AiStrategy;
  ctxPreviewUrl : option string;
  ctxRest : ContextRest }.

Definition aiStrategyJsonEqb (a b : AiStrategy) : bool :=
  optJsonEqb String.eqb (method a) (method b)
  && optJsonEqb String.eqb (generativePrompt a) (generativePrompt b)
  && optJsonEqb Bool.eqb (aiGenerationAllowed a) (aiGenerationAllowed b).

Definition contextJsonEqb (a b : MappingContext) : bool :=
  optJsonEqb Bool.eqb (ctxGenerationAllowed a) (ctxGenerationAllowed b)
  && optJsonEqb aiStrategyJsonEqb (ctxAiStrategy a) (ctxAiStrategy b)
  && optJsonEqb String.eqb (ctxPreviewUrl a) (ctxPreviewUrl b)
  && String.eqb (stringify (ctxRest a)) (stringify (ctxRest b)).

(** The sanitation of [registerResolved] (ghost flushing). *)
Definition sanitizeContext (context : MappingContext) : MappingContext :=
  let isGenerationDisallowed :=
    JS.isFalse (ctxGenerationAllowed context)
    || JS.isFalse (ctxAiStrategy context ≫= aiGenerationAllowed) in
  if isGenerationDisallowed then
    mkMappingContext (Some false)
      (match ctxAiStrategy context with
       | Some a => Some (mkAiStrategy (method a) (Some "") (Some false))
       | None => None
       end)
      None (ctxRest context)
  else
    match ctxAiStrategy context with
    | Some a =>
        if bool_decide (method a = Some "GEOMETRIC") then
          mkMappingContext (ctxGenerationAllowed context)
            (Some (mkAiStrategy (method a) (Some "") (aiGenerationAllowed a)))
            None (ctxRest context)
        else context
    | None => context
    end.

(** ** The store *)

Record ProceduralState := mkState {
  psdRegistry : gmap string Psd;
  templateRegistry : gmap string TemplateMetadata;
  resolvedRegistry : gmap string (gmap string MappingContext);
  payloadRegistry : gmap string (gmap string TransformedPayload);
  reviewerRegistry : gmap string (gmap string TransformedPayload);
  previewRegistry : gmap string (gmap string string);
  analysisRegistry : gmap string (gmap string LayoutStrategy);
  knowledgeRegistry : gmap string KnowledgeContext;
  globalVersion : Z }.

(** The state of a fresh [ProceduralStoreProvider]. *)
Definition initialState : ProceduralState :=
  mkState ∅ ∅ ∅ ∅ ∅ ∅ ∅ ∅ 0%Z.

(** [prev[nodeId] || {}], for a node id that does not name a member of
    [Object.prototype].  (Under such a name [prev[nodeId]] is a built-in
    when the registry has no record of the node, and what its members are
    depends on the engine; the node ids of the graph are not such names, and
    the model reads the registry's own records only.) *)
Definition nodeRecordOf {V} (prev : gmap string (gmap string V))
    (nodeId : string) : gmap string V :=
  default ∅ (prev !! nodeId).

(** What the registry holds for the slot [(nodeId, handleId)]: an own
    property of the node's record. *)
Definition readSlot {V} (prev : gmap string (gmap string V))
    (nodeId handleId : string) : option V :=
  nodeRecordOf prev nodeId !! handleId.

(** [nodeRecord[handleId]] with [nodeRecord = prev[nodeId] || {}], as the
    writers read it: the value held for the slot, else the member the record
    inherits under the name [handleId]. *)
Definition slotValue {V} (prev : gmap string (gmap string V))
    (nodeId handleId : string) : JS.Member V :=
  JS.get (nodeRecordOf prev nodeId) handleId.

(** The object [{}]. *)
Definition emptyPayload : TransformedPayload :=
  mkPayload None None None None None None None None
            None None None None None None None None.

(** A value read from a record, used as [currentPayload].  A built-in is
    truthy, none of the fields of a payload is a property of it and a spread
    copies nothing from it: where the code reads a payload, it is [{}]. *)
Definition readAsPayload (m : JS.Member TransformedPayload)
    : option TransformedPayload :=
  match m with
  | JS.Own p => Some p
  | JS.BuiltinFunction | JS.ObjectPrototype => Some emptyPayload
  | JS.Undefined => None
  end.

(** [{ ...prev, [nodeId]: { ...nodeRecord, [handleId]: v } }]. *)
Definition storeSlot {V} (prev : gmap string (gmap string V))
    (nodeId handleId : string) (v : V) : gmap string (gmap string V) :=
  <[nodeId := <[handleId := v]> (nodeRecordOf prev nodeId)]> prev.

(** [currentPayload && JSON.stringify(currentPayload) ===
    JSON.stringify(reconciledPayload)]: the image of a function is
    [undefined], that of [Object.prototype] is the one of [{}]. *)
Definition sameImage (currentPayload : JS.Member TransformedPayload)
    (reconciledPayload : TransformedPayload) : bool :=
  match currentPayload with
  | JS.Own c => payloadJsonEqb c reconciledPayload
  | JS.ObjectPrototype => payloadJsonEqb emptyPayload reconciledPayload
  | JS.BuiltinFunction | JS.Undefined => false
  end.

(** The end of every payload writer: the registry is returned as it is when
    the value read for the slot has the same [JSON.stringify] image as the
    reconciled payload, else the reconciled payload is stored. *)
Definition commitPayload (prev : gmap string (gmap string TransformedPayload))
    (nodeId handleId : string)
    (currentPayload : JS.Member TransformedPayload)
    (reconciledPayload : TransformedPayload)
    : gmap string (gmap string TransformedPayload) :=
  if sameImage currentPayload reconciledPayload then prev
  else storeSlot prev nodeId handleId reconciledPayload.

(** The updater [registerPayload] passes to [setPayloadRegistry]. *)
Definition registerPayloadUpdater (nodeId handleId : string)
    (payload : TransformedPayload) (masterOverride : option bool)
    (prev : gmap string (gmap string TransformedPayload))
    : outcome (gmap string (gmap string TransformedPayload)) :=
  let currentPayload := slotValue prev nodeId handleId in
  let effectivePayload :=
    if JS.isFalse masterOverride
    then payload |> set_generationAllowed (Some false)
    else payload in
  obind (reconcileTerminalState effectivePayload
           (readAsPayload currentPayload))
    (fun reconciledPayload =>
       Returns (commitPayload prev nodeId handleId currentPayload
                  reconciledPayload)).

(** The updater shared by [registerReviewerPayload] and the second half of
    [registerPreviewPayload]: the polished flag is forced on the incoming
    payload, then the payload is reconciled. *)
Definition reviewerUpdater (nodeId handleId : string)
    (payload : TransformedPayload)
    (prev : gmap string (gmap string TransformedPayload))
    : outcome (gmap string (gmap string TransformedPayload)) :=
  let currentPayload := slotValue prev nodeId handleId in
  let effectivePayload := payload |> set_isPolished (Some true) in
  obind (reconcileTerminalState effectivePayload
           (readAsPayload currentPayload))
    (fun reconciledPayload =>
       Returns (commitPayload prev nodeId handleId currentPayload
                  reconciledPayload)).

(** The updater of [updatePayload]. *)
Definition updatePayloadUpdater (nodeId handleId : string)
    (partial : PartialPayload)
    (prev : gmap string (gmap string TransformedPayload))
    : outcome (gmap string (gmap string TransformedPayload)) :=
  let currentPayload := slotValue prev nodeId handleId in
  if negb (JS.truthyObj (readAsPayload currentPayload))
     && negb (JS.truthyStr (mjoin (p_sourceContainer partial)))
     && negb (JS.truthyStr (mjoin (p_previewUrl partial)))
  then Returns prev
  else
    let mergedPayload :=
      match readAsPayload currentPayload with
      | Some c => spreadPartial c partial
      | None => asPayload partial
      end in
    obind (reconcileTerminalState mergedPayload
             (readAsPayload currentPayload))
      (fun reconciledPayload =>
         Returns (commitPayload prev nodeId handleId currentPayload
                    reconciledPayload)).

(** The updater of [updatePreview].  The node's record is read without the
    default [{}] (node ids as for [nodeRecordOf]); its member [handleId] is
    read as in the other writers. *)
Definition updatePreviewUpdater (nodeId handleId url : string)
    (prev : gmap string (gmap string TransformedPayload))
    : gmap string (gmap string TransformedPayload) :=
  match prev !! nodeId with
  | None => prev
  | Some nodeRecord =>
      match readAsPayload (JS.get nodeRecord handleId) with
      | None => prev
      | Some currentPayload =>
          if bool_decide (previewUrl currentPayload = Some url) then prev
          else <[nodeId := <[handleId :=
                   currentPayload |> set_previewUrl (Some url)]> nodeRecord]>
                 prev
      end
  end.

(** The writers of the scalar registries, which compare the images
    [JSON.stringify(prev[nodeId])] and [JSON.stringify(value)];
    [prev[nodeId] === value] holds only when the two images are the same, so
    the second test covers it.  [prev[nodeId]] is read on the registry
    itself, an object like the records. *)
Definition scalarUpdater {V} `{!Stringify V} (nodeId : string) (value : V)
    (prev : gmap string V) : gmap string V :=
  if bool_decide (JS.image stringify (JS.get prev nodeId)
                  = Some (stringify value))
  then prev
  else <[nodeId := value]> prev.

(** [currentStrategy && JSON.stringify(currentStrategy) ===
    JSON.stringify(strategy)], after the test of identity that it covers. *)
Definition registerAnalysisUpdater (nodeId handleId : string)
    (strategy : LayoutStrategy)
    (prev : gmap string (gmap string LayoutStrategy))
    : gmap string (gmap string LayoutStrategy) :=
  let currentStrategy := slotValue prev nodeId handleId in
  if bool_decide (JS.image stringify currentStrategy
                  = Some (stringify strategy))
  then prev
  else storeSlot prev nodeId handleId strategy.

(** [JSON.stringify(context) === '{}']: the context has no key with a
    value ([stringify (ctxRest context)] is the image of the object of its
    other keys). *)
Definition contextJsonEmpty (context : MappingContext) : bool :=
  match ctxGenerationAllowed context, ctxAiStrategy context,
        ctxPreviewUrl context with
  | None, None, None => String.eqb (stringify (ctxRest context)) "{}"
  | _, _, _ => false
  end.

Definition registerResolvedUpdater (nodeId handleId : string)
    (context : MappingContext)
    (prev : gmap string (gmap string MappingContext))
    : gmap string (gmap string MappingContext) :=
  let sanitizedContext := sanitizeContext context in
  let currentContext := slotValue prev nodeId handleId in
  let same :=
    match currentContext with
    | JS.Own c => contextJsonEqb c sanitizedContext
    | JS.ObjectPrototype => contextJsonEmpty sanitizedContext
    | JS.BuiltinFunction | JS.Undefined => false
    end in
  if same then prev else storeSlot prev nodeId handleId sanitizedContext.

(** [nodeRecord[handleId] === renderUrl]: only a stored string is identical
    to the url. *)
Definition registerPreviewUpdater (nodeId handleId renderUrl : string)
    (prev : gmap string (gmap string string))
    : gmap string (gmap string string) :=
  match slotValue prev nodeId handleId with
  | JS.Own url =>
      if String.eqb url renderUrl then prev
      else storeSlot prev nodeId handleId renderUrl
  | _ => storeSlot prev nodeId handleId renderUrl
  end.

(** [const { [nodeId]: _, ...rest } = prev; return rest]. *)
Definition omitNode {V} (nodeId : string) (prev : gmap string V)
    : gmap string V :=
  delete nodeId prev.

(** The guarded form used for the knowledge and preview registries:
    [if (!prev[nodeId]) return prev].  An entry of these registries is an
    object, and so is an inherited member: only [undefined] is falsy. *)
Definition omitNodeIfPresent {V} (nodeId : string) (prev : gmap string V)
    : gmap string V :=
  match JS.get prev nodeId with
  | JS.Undefined => prev
  | _ => omitNode nodeId prev
  end.

(** The operations of the context, as state transformers. *)

Definition registerPsd (nodeId : string) (psd : Psd) (st : ProceduralState)
    : ProceduralState :=
  mkState (<[nodeId := psd]> (psdRegistry st)) (templateRegistry st)
    (resolvedRegistry st) (payloadRegistry st) (reviewerRegistry st)
    (previewRegistry st) (analysisRegistry st) (knowledgeRegistry st)
    (globalVersion st).

Definition registerTemplate (nodeId : string) (template : TemplateMetadata)
    (st : ProceduralState) : ProceduralState :=
  mkState (psdRegistry st)
    (scalarUpdater nodeId template (templateRegistry st))
    (resolvedRegistry st) (payloadRegistry st) (reviewerRegistry st)
    (previewRegistry st) (analysisRegistry st) (knowledgeRegistry st)
    (globalVersion st).

Definition registerResolved (nodeId handleId : string)
    (context : MappingContext) (st : ProceduralState) : ProceduralState :=
  mkState (psdRegistry st) (templateRegistry st)
    (registerResolvedUpdater nodeId handleId context (resolvedRegistry st))
    (payloadRegistry st) (reviewerRegistry st)
    (previewRegistry st) (analysisRegistry st) (knowledgeRegistry st)
    (globalVersion st).

Definition setPayloadRegistry
    (r : gmap string (gmap string TransformedPayload))
    (st : ProceduralState) : ProceduralState :=
  mkState (psdRegistry st) (templateRegistry st) (resolvedRegistry st)
    r (reviewerRegistry st)
    (previewRegistry st) (analysisRegistry st) (knowledgeRegistry st)
    (globalVersion st).

Definition setReviewerRegistry
    (r : gmap string (gmap string TransformedPayload))
    (st : ProceduralState) : ProceduralState :=
  mkState (psdRegistry st) (templateRegistry st) (resolvedRegistry st)
    (payloadRegistry st) r
    (previewRegistry st) (analysisRegistry st) (knowledgeRegistry st)
    (globalVersion st).

Definition setPreviewRegistry (r : gmap string (gmap string string))
    (st : ProceduralState) : ProceduralState :=
  mkState (psdRegistry st) (templateRegistry st) (resolvedRegistry st)
    (payloadRegistry st) (reviewerRegistry st)
    r (analysisRegistry st) (knowledgeRegistry st)
    (globalVersion st).

Definition registerPayload (nodeId handleId : string)
    (payload : TransformedPayload) (masterOverride : option bool)
    (st : ProceduralState) : outcome ProceduralState :=
  obind (registerPayloadUpdater nodeId handleId payload masterOverride
           (payloadRegistry st))
    (fun r => Returns (setPayloadRegistry r st)).

Definition registerReviewerPayload (nodeId handleId : string)
    (payload : TransformedPayload) (st : ProceduralState)
    : outcome ProceduralState :=
  obind (reviewerUpdater nodeId handleId payload (reviewerRegistry st))
    (fun r => Returns (setReviewerRegistry r st)).

Definition registerPreviewPayload (nodeId handleId : string)
    (payload : TransformedPayload) (renderUrl : string)
    (st : ProceduralState) : outcome ProceduralState :=
  let st1 :=
    setPreviewRegistry
      (registerPreviewUpdater nodeId handleId renderUrl (previewRegistry st))
      st in
  obind (reviewerUpdater nodeId handleId payload (reviewerRegistry st1))
    (fun r => Returns (setReviewerRegistry r st1)).

Definition updatePayload (nodeId handleId : string)
    (partial : PartialPayload) (st : ProceduralState)
    : outcome ProceduralState :=
  obind (updatePayloadUpdater nodeId handleId partial (payloadRegistry st))
    (fun r => Returns (setPayloadRegistry r st)).

Definition registerAnalysis (nodeId handleId : string)
    (strategy : LayoutStrategy) (st : ProceduralState) : ProceduralState :=
  mkState (psdRegistry st) (templateRegistry st) (resolvedRegistry st)
    (payloadRegistry st) (reviewerRegistry st) (previewRegistry st)
    (registerAnalysisUpdater nodeId handleId strategy (analysisRegistry st))
    (knowledgeRegistry st) (globalVersion st).

Definition registerKnowledge (nodeId : string) (context : KnowledgeContext)
    (st : ProceduralState) : ProceduralState :=
  mkState (psdRegistry st) (templateRegistry st) (resolvedRegistry st)
    (payloadRegistry st) (reviewerRegistry st) (previewRegistry st)
    (analysisRegistry st)
    (scalarUpdater nodeId context (knowledgeRegistry st))
    (globalVersion st).

Definition updatePreview (nodeId handleId url : string)
    (st : ProceduralState) : ProceduralState :=
  setPayloadRegistry
    (updatePreviewUpdater nodeId handleId url (payloadRegistry st)) st.

Definition unregisterNode (nodeId : string) (st : ProceduralState)
    : ProceduralState :=
  mkState
    (omitNode nodeId (psdRegistry st))
    (omitNode nodeId (templateRegistry st))
    (omitNode nodeId (resolvedRegistry st))
    (omitNode nodeId (payloadRegistry st))
    (omitNode nodeId (reviewerRegistry st))
    (omitNodeIfPresent nodeId (previewRegistry st))
    (omitNode nodeId (analysisRegistry st))
    (omitNodeIfPresent nodeId (knowledgeRegistry st))
    (globalVersion st + 1)%Z.

Definition triggerGlobalRefresh (st : ProceduralState) : ProceduralState :=
  mkState (psdRegistry st) (templateRegistry st) (resolvedRegistry st)
    (payloadRegistry st) (reviewerRegistry st) (previewRegistry st)
    (analysisRegistry st) (knowledgeRegistry st)
    (globalVersion st + 1)%Z.

(** The calls a node can make on the context. *)
Inductive Action :=
| RegisterPsd (nodeId : string) (psd : Psd)
| RegisterTemplate (nodeId : string) (template : TemplateMetadata)
| RegisterResolved (nodeId handleId : string) (context : MappingContext)
| RegisterPayload (nodeId handleId : string) (payload : TransformedPayload)
    (masterOverride : option bool)
| RegisterReviewerPayload (nodeId handleId : string)
    (payload : TransformedPayload)
| RegisterPreviewPayload (nodeId handleId : string)
    (payload : TransformedPayload) (renderUrl : string)
| UpdatePayload (nodeId handleId : string) (partial : PartialPayload)
| RegisterAnalysis (nodeId handleId : string) (strategy : LayoutStrategy)
| RegisterKnowledge (nodeId : string) (context : KnowledgeContext)
| UpdatePreview (nodeId handleId url : string)
| UnregisterNode (nodeId : string)
| TriggerGlobalRefresh.

Definition perform (a : Action) (st : ProceduralState)
    : outcome ProceduralState :=
  match a with
  | RegisterPsd n psd => Returns (registerPsd n psd st)
  | RegisterTemplate n t => Returns (registerTemplate n t st)
  | RegisterResolved n h c => Returns (registerResolved n h c st)
  | RegisterPayload n h p mo => registerPayload n h p mo st
  | RegisterReviewerPayload n h p => registerReviewerPayload n h p st
  | RegisterPreviewPayload n h p url => registerPreviewPayload n h p url st
  | UpdatePayload n h partial => updatePayload n h partial st
  | RegisterAnalysis n h s => Returns (registerAnalysis n h s st)
  | RegisterKnowledge n c => Returns (registerKnowledge n c st)
  | UpdatePreview n h url => Returns (updatePreview n h url st)
  | UnregisterNode n => Returns (unregisterNode n st)
  | TriggerGlobalRefresh => Returns (triggerGlobalRefresh st)
  end.

(** The states of the store after any sequence of calls that return. *)
Inductive reachable : ProceduralState -> Prop :=
| reachable_init : reachable initialState
| reachable_step a st st' :
    reachable st -> perform a st = Returns st' -> reachable st'.

(** ** Rules and sample payloads *)

(** The rule of the reconciler that decides a call: the conditions of
    [reconcileTerminalState], in its order. *)
Inductive Rule :=
| HardStop
| MandatoryConfirm
| StaleGuard
| IdleSanitation
| Flush
| GeometricPreservation
| DefaultMerge.

Definition ruleOf (incomingPayload : TransformedPayload)
    (currentPayload : option TransformedPayload) : Rule :=
  if JS.isFalse (generationAllowed incomingPayload) then HardStop
  else if isForced incomingPayload
          && JS.truthyBool (requiresGeneration incomingPayload)
  then MandatoryConfirm
  else if staleGuard incomingPayload currentPayload is Some _ then StaleGuard
  else if bool_decide (status incomingPayload = Some "idle")
  then IdleSanitation
  else if JS.truthyBool (isSynthesizing incomingPayload) then Flush
  else if negb (JS.truthyNum (generationId incomingPayload))
          && JS.truthyNum (currentPayload ≫= generationId)
  then GeometricPreservation
  else DefaultMerge.

(** The three writes of the out-of-order delivery scenario. *)
Definition synthesisStarted : TransformedPayload :=
  emptyPayload
  |> set_generationId (Some 1%Z)
  |> set_isSynthesizing (Some true)
  |> set_status (Some "loading").

Definition synthesisDone : TransformedPayload :=
  emptyPayload
  |> set_generationId (Some 1%Z)
  |> set_isSynthesizing (Some false)
  |> set_status (Some "success")
  |> set_previewUrl (Some "A").

Definition lateOldGeneration : TransformedPayload :=
  emptyPayload
  |> set_generationId (Some 0%Z)
  |> set_status (Some "success")
  |> set_previewUrl (Some "OLD").

(** The sequencing of two calls on the store. *)
Definition andThen (o : outcome ProceduralState)
    (f : ProceduralState -> outcome ProceduralState)
    : outcome ProceduralState :=
  obind o f.

(** Every payload of a registry carries the polished flag. *)
Definition allPolished
    (reg : gmap string (gmap string TransformedPayload)) : Prop :=
  forall nodeId handleId p,
    readSlot reg nodeId handleId = Some p -> isPolished p = Some true.

(** A payload that only carries a generation id. *)
Definition ofGeneration (g : Z) : TransformedPayload :=
  emptyPayload |> set_generationId (Some g).

(** A leaf layer with the given id and type, at the origin. *)
Definition leafLayer (id type : string) : Layer.t :=
  Layer.mk id id type true 1%float
    (Coords.mk 0 0 0 0) (Transform.mk 1 1 0 0 None) None.

(** The payload of the spec's hard-stop scenario: generation disallowed,
    layers ["0.1"], ["0.2"] (swapped to generative) and ["gen-layer-7"]. *)
Definition swappedScenario : TransformedPayload :=
  emptyPayload
  |> set_generationAllowed (Some false)
  |> set_layers (Some [leafLayer "0.1" "pixel";
                       leafLayer "0.2" "generative";
                       leafLayer "gen-layer-7" "generative"]).

(** A stored payload of generation 2 that is idle and still has a preview. *)
Definition idleWithPreview : TransformedPayload :=
  ofGeneration 2
  |> set_status (Some "idle")
  |> set_previewUrl (Some "X").

(** A stored payload of generation 1 with a generated preview. *)
Definition generatedPreview : TransformedPayload :=
  ofGeneration 1
  |> set_status (Some "success")
  |> set_previewUrl (Some "A").

(** A layout update without generation id that signals a reset. *)
Definition idleLayout : TransformedPayload :=
  emptyPayload |> set_status (Some "idle").

(** A layout update without generation id. *)
Definition plainLayout : TransformedPayload :=
  emptyPayload |> set_status (Some "success").

(** An old generation that arrives late with generation disallowed. *)
Definition disallowedOld : TransformedPayload :=
  ofGeneration 1
  |> set_generationAllowed (Some false)
  |> set_layers (Some []).

(** The store after [registerPayload('node-1', 'out', {generationId: 2})] on
    a fresh store. *)
Definition generation2Stored : ProceduralState :=
  setPayloadRegistry
    (storeSlot ∅ "node-1" "out"
       (ofGeneration 2
        |> set_isConfirmed (Some false)
        |> set_generationAllowed (Some true)))
    initialState.

(** A payload a reviewer node writes, and what the reviewer registry of a
    fresh store holds after [registerReviewerPayload('reviewer-1', 'out', _)]
    of it. *)
Definition polishedLayout : TransformedPayload :=
  plainLayout
  |> set_isPolished (Some true)
  |> set_isConfirmed (Some false)
  |> set_generationAllowed (Some true).

Definition reviewedOnce : ProceduralState :=
  setReviewerRegistry (storeSlot ∅ "reviewer-1" "out" polishedLayout)
    initialState.

(** A partial that only carries a status. *)
Definition statusOnly : PartialPayload :=
  mkPartial (Some (Some "success")) None None None None None None None
            None None None None None None None None.

(** The layer and the override of the spec's [applyOverrides] scenario, the
    layer nested in a group. *)
Definition nudgedLayer : Layer.t :=
  Layer.mk "0.1" "title" "pixel" true 1%float
    (Coords.mk 10 10 100 50) (Transform.mk 1 1 10 10 None) None.

Definition nudgedGroup : Layer.t :=
  Layer.mk "0" "group" "group" true 1%float
    (Coords.mk 0 0 200 200) (Transform.mk 1 1 0 0 None)
    (Some [nudgedLayer]).

Definition nudge : LayerOverride.t :=
  LayerOverride.mk "0.1" 5%float (-5)%float (Some 0.9%float) None
    "keep the title inside the safe area".

Definition nudgedPayload : TransformedPayload :=
  emptyPayload |> set_layers (Some [nudgedGroup]).

(** ** Sequences of calls, gate hygiene and the reviewer's side *)

(** The calls of a list, in order; a call that raises ends the run. *)
Definition performAll (actions : list Action) (st : ProceduralState)
    : outcome ProceduralState :=
  fold_left (fun o a => obind o (perform a)) actions (Returns st).

(** The calls that end in [setGlobalVersion(v => v + 1)]. *)
Definition bumpsVersion (a : Action) : bool :=
  match a with
  | UnregisterNode _ | TriggerGlobalRefresh => true
  | _ => false
  end.

(** The node id under which a call writes, for the calls that write. *)
Definition actionNode (a : Action) : option string :=
  match a with
  | RegisterPsd n _ | RegisterTemplate n _ | RegisterResolved n _ _
  | RegisterPayload n _ _ _ | RegisterReviewerPayload n _ _
  | RegisterPreviewPayload n _ _ _ | UpdatePayload n _ _
  | RegisterAnalysis n _ _ | RegisterKnowledge n _ | UpdatePreview n _ _ =>
      Some n
  | UnregisterNode _ | TriggerGlobalRefresh => None
  end.

(** [merged] is [base] with the keys of [partial] laid over it: a key the
    partial has, even with the value [undefined], has the partial's value,
    every other key keeps the value of [base]. *)
Definition overlays (merged base : TransformedPayload)
    (partial : PartialPayload) : Prop :=
  status merged = from_option id (status base) (p_status partial)
  /\ sourceContainer merged
     = from_option id (sourceContainer base) (p_sourceContainer partial)
  /\ targetContainer merged
     = from_option id (targetContainer base) (p_targetContainer partial)
  /\ metrics merged = from_option id (metrics base) (p_metrics partial)
  /\ layers merged = from_option id (layers base) (p_layers partial)
  /\ requiresGeneration merged
     = from_option id (requiresGeneration base)
         (p_requiresGeneration partial)
  /\ previewUrl merged
     = from_option id (previewUrl base) (p_previewUrl partial)
  /\ isConfirmed merged
     = from_option id (isConfirmed base) (p_isConfirmed partial)
  /\ isTransient merged
     = from_option id (isTransient base) (p_isTransient partial)
  /\ isSynthesizing merged
     = from_option id (isSynthesizing base) (p_isSynthesizing partial)
  /\ sourceReference merged
     = from_option id (sourceReference base) (p_sourceReference partial)
  /\ generationId merged
     = from_option id (generationId base) (p_generationId partial)
  /\ generationAllowed merged
     = from_option id (generationAllowed base) (p_generationAllowed partial)
  /\ isPolished merged
     = from_option id (isPolished base) (p_isPolished partial)
  /\ isMandatory merged
     = from_option id (isMandatory base) (p_isMandatory partial)
  /\ directives merged
     = from_option id (directives base) (p_directives partial).

(** The calls that write to the reviewer registry do so under a node id and
    a handle id that do not name a member of [Object.prototype]. *)
Definition plainReview (a : Action) : bool :=
  match a with
  | RegisterReviewerPayload n h _ | RegisterPreviewPayload n h _ _ =>
      negb (JS.inherited n) && negb (JS.inherited h)
  | _ => true
  end.

(** A layer that is not a purely synthetic one: not generative, or
    generative under an original (non-empty, unprefixed) id. *)
Definition notSynthetic (l : Layer.t) : Prop :=
  Layer.type l = "generative" ->
  Layer.id l <> "" /\ String.prefix "gen-layer-" (Layer.id l) = false.

(** What the hard stop leaves of a payload: no confirmation, draft or
    synthesis flag, no pending generation, no purely synthetic layer. *)
Definition stripped (p : TransformedPayload) : Prop :=
  isConfirmed p = Some false
  /\ isTransient p = Some false
  /\ isSynthesizing p = Some false
  /\ requiresGeneration p = Some false
  /\ exists ls, layers p = Some ls /\ Forall notSynthetic ls.

(** A payload with the gate closed is a stripped one. *)
Definition gateRespected (p : TransformedPayload) : Prop :=
  generationAllowed p = Some false -> stripped p.

(** A resolved context as [registerResolved] leaves it. *)
Definition contextFlushed (ctx : MappingContext) : Prop :=
  (ctxGenerationAllowed ctx = Some false
   \/ ctxAiStrategy ctx ≫= aiGenerationAllowed = Some false
   \/ ctxAiStrategy ctx ≫= method = Some "GEOMETRIC" ->
   ctxPreviewUrl ctx = None
   /\ forall a, ctxAiStrategy ctx = Some a -> generativePrompt a = Some "")
  /\ (ctxGenerationAllowed ctx = Some false
      \/ ctxAiStrategy ctx ≫= aiGenerationAllowed = Some false ->
      ctxGenerationAllowed ctx = Some false
      /\ forall a, ctxAiStrategy ctx = Some a ->
           aiGenerationAllowed a = Some false).

(** The first edge into the input [payload-in-<index>] of the node [id]:
    [edges.find(e => e.target === id && e.targetHandle === ...)]. *)
Definition incomingEdge (id : string) (edges : list Edge.t) (index : N)
    : option Edge.t :=
  List.find
    (fun e => String.eqb (Edge.target e) id
              && bool_decide (Edge.targetHandle e
                              = Some ("payload-in-" ++ pretty index)))
    edges.

(** [edge.sourceHandle || '']. *)
Definition sourceKey (edge : Edge.t) : string :=
  default "" (JS.or JS.truthyStr (Edge.sourceHandle edge) (Some "")).

(** [getIncomingPayload] of the reviewer node [id]: the payload at the
    producer end of the edge into its input [index], if any ([null] and
    [undefined] are [None]; the row that receives it reads it as a payload;
    node ids as for [nodeRecordOf]). *)
Definition getIncomingPayload (id : string) (edges : list Edge.t)
    (payloadRegistry : gmap string (gmap string TransformedPayload))
    (index : N) : option TransformedPayload :=
  match incomingEdge id edges index with
  | None => None
  | Some edge =>
      match payloadRegistry !! Edge.source edge with
      | Some nodePayloads =>
          readAsPayload (JS.get nodePayloads (sourceKey edge))
      | None => None
      end
  end.


(** The effect of a reviewer row that watches the generation id (``Stale
    Guard & Audit Reset''), on the ref [lastProcessedGenerationId]: the new
    value of the ref, and whether the audit is reset. *)
Definition auditEffect (lastProcessedGenerationId : option Z)
    (incomingPayload : option TransformedPayload) : option Z * bool :=
  match incomingPayload with
  | None => (lastProcessedGenerationId, false)
  | Some incoming =>
      let currentGenId := generationId incoming in
      match lastProcessedGenerationId, currentGenId with
      | None, Some _ => (currentGenId, false)
      | None, None => (lastProcessedGenerationId, false)
      | Some previousGenId, _ =>
          if bool_decide (currentGenId <> Some previousGenId)
          then (currentGenId, true)
          else (lastProcessedGenerationId, false)
      end
  end.

(** The effect run on the successive values of the incoming payload: the
    final ref and the number of resets. *)
Fixpoint auditRun (lastProcessedGenerationId : option Z)
    (incoming : list (option TransformedPayload)) : option Z * nat :=
  match incoming with
  | [] => (lastProcessedGenerationId, 0)
  | p :: rest =>
      let '(ref, reset) := auditEffect lastProcessedGenerationId p in
      let '(final, resets) := auditRun ref rest in
      (final, if reset then S resets else resets)
  end.

(** The spec's hard-stop scenario once reconciled, and the store that holds
    it after [registerPayload('node-1', 'out', _)] on a fresh store. *)
Definition strippedScenario : TransformedPayload :=
  swappedScenario
  |> set_isConfirmed (Some false)
  |> set_isTransient (Some false)
  |> set_isSynthesizing (Some false)
  |> set_requiresGeneration (Some false)
  |> set_layers (Some [leafLayer "0.1" "pixel";
                       leafLayer "0.2" "generative"]).

Definition gateClosedStore : ProceduralState :=
  setPayloadRegistry (storeSlot ∅ "node-1" "out" strippedScenario)
    initialState.

(** A generated payload that carries (no) layers. *)
Definition generatedWithLayers : TransformedPayload :=
  generatedPreview |> set_layers (Some []).


(** An edge from the slot [node-1/out] to the first input of a reviewer. *)
Definition reviewEdge : Edge.t :=
  Edge.mk "node-1" (Some "out") "reviewer-1" (Some "payload-in-0").

(** A context with a ghost preview whose generation is disallowed. *)
Definition ghostContext (rest : ContextRest) : MappingContext :=
  mkMappingContext (Some false)
    (Some (mkAiStrategy (Some "GENERATIVE") (Some "a night sky") None))
    (Some "ghost") rest.


Definition secondNudge : LayerOverride.t :=
  LayerOverride.mk "0.1" 100%float 100%float (Some 2%float) None "again".

(** ** Properties of the reconciler *)

#[local] Arguments String.eqb : simpl never.
#[local] Arguments String.prefix : simpl never.

Lemma isFalse_false (b : option bool) :
  b <> Some false -> JS.isFalse b = false.
Proof. destruct b as [[|]|]; simpl; congruence. Qed.

Lemma truthyNum_Some (z : Z) : z <> 0%Z -> JS.truthyNum (Some z) = true.
Proof. intros Hz. simpl. apply negb_true_iff, Z.eqb_neq, Hz. Qed.

Lemma filter_keepLayer_idem (ls : list Layer.t) :
  List.filter keepLayer (List.filter keepLayer ls) = List.filter keepLayer ls.
Proof.
  induction ls as [|l ls IH]; simpl; [reflexivity|].
  destruct (keepLayer l) eqn:Hk; simpl; [rewrite Hk, IH|]; auto.
Qed.

(** C1 (amended). Monotonic generation: when generation is not disallowed on
    the incoming payload and mandatory auto-confirmation does not apply to
    it, and both payloads carry a non-zero generation id with the incoming
    one smaller, the reconciler returns the stored payload unchanged. *)
Theorem stale_generation_rejected
    (incoming current : TransformedPayload) (gi gc : Z) :
  generationAllowed incoming <> Some false ->
  isForced incoming && JS.truthyBool (requiresGeneration incoming) = false ->
  generationId incoming = Some gi ->
  generationId current = Some gc ->
  gi <> 0%Z -> gc <> 0%Z -> (gi < gc)%Z ->
  reconcileTerminalState incoming (Some current) = Returns current.
Proof.
  intros Hga Hforced Hgi Hgc Hi0 Hc0 Hlt.
  unfold reconcileTerminalState.
  rewrite (isFalse_false _ Hga), Hforced.
  unfold staleGuard. rewrite Hgi, Hgc, !truthyNum_Some by assumption.
  simpl. apply Z.ltb_lt in Hlt. rewrite Hlt. reflexivity.
Qed.

(** C2 (amended). Generation-disallow purity: when the incoming payload has
    [generationAllowed = false] and carries layers, the reconciler returns a
    payload whose layers are the incoming ones filtered; none of them is a
    generative layer whose id is empty or starts with the synthetic-id
    prefix ['gen-layer-'], and every incoming layer that is not generative,
    or whose non-empty id lacks the prefix, is kept. *)
Theorem hard_stop_strips_synthetic
    (incoming : TransformedPayload) (current : option TransformedPayload)
    (ls : list Layer.t) :
  generationAllowed incoming = Some false ->
  layers incoming = Some ls ->
  exists r ls',
    reconcileTerminalState incoming current = Returns r
    /\ layers r = Some ls'
    /\ ls' = List.filter keepLayer ls
    /\ (forall l, In l ls' ->
          Layer.type l = "generative" ->
          Layer.id l <> ""
          /\ String.prefix "gen-layer-" (Layer.id l) = false)
    /\ (forall l, In l ls ->
          Layer.type l <> "generative"
          \/ (Layer.id l <> ""
              /\ String.prefix "gen-layer-" (Layer.id l) = false) ->
          In l ls').
Proof.
  intros Hga Hls. unfold reconcileTerminalState. rewrite Hga, Hls. simpl.
  do 2 eexists; split; [reflexivity|]. split; [|split; [reflexivity|split]].
  - destruct incoming; reflexivity.
  - intros l Hin Hty. apply List.filter_In in Hin as [_ Hk].
    unfold keepLayer in Hk. rewrite Hty in Hk. simpl in Hk.
    apply andb_true_iff in Hk as [Hid Hpre].
    apply negb_true_iff in Hid, Hpre. split; [|exact Hpre].
    intros Heq. rewrite Heq in Hid. discriminate.
  - intros l Hin Hkeep. apply List.filter_In. split; [exact Hin|].
    unfold keepLayer. apply orb_true_iff.
    destruct Hkeep as [Hty|[Hid Hpre]].
    + left. apply negb_true_iff, String.eqb_neq, Hty.
    + right. rewrite Hpre. apply andb_true_iff. split; [|reflexivity].
      apply negb_true_iff, String.eqb_neq, Hid.
Qed.

(** C4 (amended). Geometric preservation: when the incoming payload lacks a
    generation id, the stored one has a non-zero generation id, and none of
    the earlier rules applies to the incoming payload (generation is not
    disallowed, mandatory auto-confirmation does not apply, the status is
    not idle), the reconciled payload has the stored payload's previewUrl. *)
Theorem layout_update_keeps_preview
    (incoming current : TransformedPayload) (g : Z) :
  generationId incoming = None ->
  generationId current = Some g ->
  g <> 0%Z ->
  generationAllowed incoming <> Some false ->
  isForced incoming && JS.truthyBool (requiresGeneration incoming) = false ->
  status incoming <> Some "idle" ->
  exists r,
    reconcileTerminalState incoming (Some current) = Returns r
    /\ previewUrl r = previewUrl current.
Proof.
  intros Hgi Hgc Hg0 Hga Hforced Hidle.
  unfold reconcileTerminalState.
  rewrite (isFalse_false _ Hga), Hforced.
  unfold staleGuard. rewrite Hgi, Hgc. simpl.
  rewrite andb_false_r. rewrite bool_decide_eq_false_2 by assumption.
  destruct (JS.truthyBool (isSynthesizing incoming)).
  - eexists; split; [reflexivity|]. destruct current; reflexivity.
  - rewrite Hgc, truthyNum_Some by assumption.
    eexists; split; [reflexivity|]. destruct incoming; reflexivity.
Qed.

Lemma jsOr_idem {A} (truthy : option A -> bool) (a : option A) :
  JS.or truthy a a = a.
Proof. unfold JS.or. destruct (truthy a); reflexivity. Qed.

Lemma jsOr_absorb {A} (truthy : option A -> bool) (a b : option A) :
  JS.or truthy a (JS.or truthy a b) = JS.or truthy a b.
Proof. unfold JS.or. destruct (truthy a); reflexivity. Qed.

Lemma jsOr_default_idem {A} (truthy : option A -> bool) (a d : option A) :
  JS.or truthy (JS.or truthy a d) d = JS.or truthy a d.
Proof.
  unfold JS.or. destruct (truthy a) eqn:Ha; rewrite ?Ha;
    destruct (truthy d); reflexivity.
Qed.

Lemma ltNum_irrefl (g : option Z) : JS.ltNum g g = false.
Proof. destruct g as [z|]; simpl; [apply Z.ltb_irrefl | reflexivity]. Qed.

Lemma staleGuard_self (r : TransformedPayload) : staleGuard r (Some r) = None.
Proof.
  unfold staleGuard. rewrite ltNum_irrefl, andb_false_r. reflexivity.
Qed.

(** C3 (amended). Idempotence: when the call returns and there is no stored
    payload, or the call is decided by the hard stop, the mandatory
    auto-confirmation, the idle sanitation or the default merge, reconciling
    the result with itself gives the result again. *)
Theorem reconcile_fixed_point
    (a : TransformedPayload) (b : option TransformedPayload) :
  (generationAllowed a = Some false -> layers a <> None) ->
  b = None
  \/ In (ruleOf a b)
        [HardStop; MandatoryConfirm; IdleSanitation; DefaultMerge] ->
  exists r,
    reconcileTerminalState a b = Returns r
    /\ reconcileTerminalState r (Some r) = Returns r.
Proof.
  intros Hls Hrule.
  assert (Hrule' : match ruleOf a b with
                   | StaleGuard | GeometricPreservation => False
                   | Flush => b = None
                   | _ => True
                   end).
  { destruct Hrule as [->|Hin].
    - unfold ruleOf. simpl. rewrite andb_false_r.
      repeat match goal with |- context [if ?c then _ else _] =>
               destruct c end; trivial.
    - destruct (ruleOf a b); simpl in Hin; trivial;
        repeat destruct Hin as [Hin|Hin]; try discriminate; contradiction. }
  clear Hrule.
  destruct a as [st sc tc m ls rg pu ic it isy sr gid ga ip im ds].
  unfold ruleOf in Hrule'. unfold reconcileTerminalState at 1.
  cbn in *.
  destruct (JS.isFalse ga) eqn:Hga.
  - destruct ls as [ls|].
    + eexists; split; [reflexivity|].
      unfold reconcileTerminalState. cbn.
      rewrite Hga, filter_keepLayer_idem. reflexivity.
    + exfalso. destruct ga as [[|]|]; try discriminate.
      apply Hls; reflexivity.
  - clear Hls.
    destruct (isForced _ && JS.truthyBool rg) eqn:Hf.
    { eexists; split; [reflexivity|].
      unfold reconcileTerminalState. cbn.
      unfold isForced, hasMandatoryDirective in *. cbn in *.
      rewrite Hga, Hf, !jsOr_idem. reflexivity. }
    destruct (staleGuard _ b) as [c|] eqn:Hs; [contradiction|].
    unfold isForced, hasMandatoryDirective in Hf. cbn in Hf.
    destruct (bool_decide (st = Some "idle")) eqn:Hi.
    { eexists; split; [reflexivity|].
      unfold reconcileTerminalState. rewrite staleGuard_self.
      unfold isForced, hasMandatoryDirective. cbn.
      rewrite Hga, Hf, Hi. reflexivity. }
    destruct (JS.truthyBool isy) eqn:Hsy.
    { subst b. eexists; split; [reflexivity|].
      unfold reconcileTerminalState. rewrite staleGuard_self.
      unfold isForced, hasMandatoryDirective. cbn.
      rewrite Hf, Hi, !jsOr_idem, jsOr_default_idem. reflexivity. }
    destruct (negb (JS.truthyNum gid) && JS.truthyNum (b ≫= generationId))
      eqn:Hg; [contradiction|].
    eexists; split; [reflexivity|].
    unfold reconcileTerminalState. rewrite staleGuard_self.
    unfold isForced, hasMandatoryDirective. cbn.
    rewrite Hf, Hi, Hsy, andb_negb_l, !jsOr_idem.
    destruct (JS.truthyBool it); [reflexivity|].
    destruct ic as [ic|]; [reflexivity|].
    destruct (b ≫= isConfirmed); reflexivity.
Qed.

Lemma jsOr_truthy {A} (truthy : option A -> bool) (a b : option A) :
  truthy a = true -> JS.or truthy a b = a.
Proof. unfold JS.or. intros ->. reflexivity. Qed.

Lemma jsOr_falsy {A} (truthy : option A -> bool) (a b : option A) :
  truthy a = false -> JS.or truthy a b = b.
Proof. unfold JS.or. intros ->. reflexivity. Qed.

Lemma jsOr_nested_default {A} (truthy : option A -> bool) (a b d : option A) :
  JS.or truthy (JS.or truthy a (JS.or truthy (JS.or truthy a b) d)) d
  = JS.or truthy (JS.or truthy a b) d.
Proof.
  unfold JS.or. destruct (truthy a) eqn:Ha; rewrite ?Ha; [reflexivity|].
  destruct (truthy b) eqn:Hb; rewrite ?Hb; [reflexivity|].
  destruct (truthy d) eqn:Hd; rewrite ?Hd; reflexivity.
Qed.

Lemma nullish_default_absorb (a b : option bool) :
  JS.nullish (JS.nullish a (JS.nullish (JS.nullish a b) (Some false)))
             (Some false)
  = JS.nullish (JS.nullish a b) (Some false).
Proof. destruct a, b; reflexivity. Qed.

(** Reconciling the same incoming payload against the result of its own
    reconciliation gives that result again: this is what makes a repeated
    write a no-op. *)
Lemma reconcile_absorb
    (p : TransformedPayload) (c : option TransformedPayload)
    (r : TransformedPayload) :
  reconcileTerminalState p c = Returns r ->
  reconcileTerminalState p (Some r) = Returns r.
Proof.
  intros H. generalize H. unfold reconcileTerminalState.
  destruct (JS.isFalse (generationAllowed p)) eqn:Hga.
  { destruct (layers p); intros [= <-]; reflexivity || discriminate. }
  destruct (isForced p && JS.truthyBool (requiresGeneration p)) eqn:Hf.
  { intros [= <-]. destruct p; cbn. rewrite !jsOr_absorb. reflexivity. }
  destruct (staleGuard p c) as [c0|] eqn:Hs.
  { intros [= <-]. unfold staleGuard in Hs. destruct c as [c1|]; [|discriminate].
    destruct (_ && _) eqn:Hc in Hs; [|discriminate].
    injection Hs as ->. unfold staleGuard. rewrite Hc. reflexivity. }
  destruct (bool_decide (status p = Some "idle")) eqn:Hi.
  { intros [= <-].
    assert (Hs' : staleGuard p (Some (p |> set_previewUrl None
                     |> set_isConfirmed (Some false)
                     |> set_isTransient (Some false)
                     |> set_isSynthesizing (Some false))) = None).
    { unfold staleGuard. destruct p; cbn.
      rewrite ltNum_irrefl, andb_false_r. reflexivity. }
    rewrite Hs'. reflexivity. }
  destruct (JS.truthyBool (isSynthesizing p)) eqn:Hsy.
  { intros [= <-]. clear H.
    destruct p as [st sc tc m ls rg pu ic it isy sr gid ga ip im ds].
    unfold staleGuard in *.
    destruct c as [[st' sc' tc' m' ls' rg' pu' ic' it' isy' sr' gid' ga' ip'
                    im' ds']|]; cbn in *.
    - destruct (_ && _) eqn:Hc in Hs; [discriminate|]. rewrite Hc.
      rewrite !jsOr_absorb, jsOr_nested_default. reflexivity.
    - rewrite !jsOr_absorb, jsOr_nested_default. reflexivity. }
  destruct p as [st sc tc m ls rg pu ic it isy sr gid ga ip im ds].
  cbn in *. clear H.
  destruct (JS.truthyNum gid) eqn:Hgid; cbn.
  - intros [= <-]. unfold staleGuard. cbn.
    rewrite !(jsOr_truthy JS.truthyNum gid) by assumption.
    rewrite Hgid, ltNum_irrefl, andb_false_r, jsOr_absorb. cbn.
    destruct (JS.truthyBool it); [reflexivity|].
    rewrite nullish_default_absorb. reflexivity.
  - destruct (JS.truthyNum (c ≫= generationId)) eqn:Hcg; intros [= <-].
    + unfold staleGuard. cbn. rewrite ?Hgid, ?Hcg, ?andb_false_r. cbn.
      rewrite ?Hgid, ?Hcg. cbn. rewrite jsOr_default_idem. reflexivity.
    + unfold staleGuard. cbn.
      rewrite !(jsOr_falsy JS.truthyNum gid) by assumption.
      rewrite ?Hgid, ?Hcg, ?andb_false_r, jsOr_absorb. cbn.
      rewrite ?Hgid, ?Hcg. cbn.
      destruct (JS.truthyBool it); [reflexivity|].
      rewrite nullish_default_absorb. reflexivity.
Qed.

(** ** Structural comparison is reflexive *)

Lemma Layer_nested_ind (P : Layer.t -> Prop) :
  (forall i n t v o c tr ch,
      (forall cs, ch = Some cs -> Forall P cs) ->
      P (Layer.mk i n t v o c tr ch)) ->
  forall l, P l.
Proof.
  intros step. fix rec 1. intros [i n t v o c tr ch].
  apply step.
  assert (Hch : match ch with Some cs => Forall P cs | None => True end).
  { destruct ch as [cs|]; [|exact I].
    induction cs as [|x xs IHxs]; constructor; [apply rec | exact IHxs]. }
  intros cs ->. exact Hch.
Qed.

Lemma optJsonEqb_refl {A} (eqb : A -> A -> bool) (a : option A) :
  (forall x, a = Some x -> eqb x x = true) -> optJsonEqb eqb a a = true.
Proof. destruct a as [x|]; simpl; auto. Qed.

Lemma listJsonEqb_refl {A} (eqb : A -> A -> bool) (xs : list A) :
  Forall (fun x => eqb x x = true) xs -> listJsonEqb eqb xs xs = true.
Proof.
  induction 1 as [|x xs Hx _ IH]; simpl; [reflexivity|].
  rewrite Hx, IH. reflexivity.
Qed.

Lemma specFloatEqb_refl (f : spec_float) : specFloatEqb f f = true.
Proof.
  destruct f as [s|s| |s m e]; simpl; rewrite ?eqb_reflx; try reflexivity.
  rewrite Pos.eqb_refl, Z.eqb_refl. reflexivity.
Qed.

Lemma numJsonEqb_refl (f : float) : numJsonEqb f f = true.
Proof.
  unfold numJsonEqb. apply optJsonEqb_refl.
  intros x _. apply specFloatEqb_refl.
Qed.

Lemma coordsJsonEqb_refl (c : Coords.t) : coordsJsonEqb c c = true.
Proof. unfold coordsJsonEqb. rewrite !numJsonEqb_refl. reflexivity. Qed.

Lemma transformJsonEqb_refl (t : Transform.t) : transformJsonEqb t t = true.
Proof.
  unfold transformJsonEqb. rewrite !numJsonEqb_refl, optJsonEqb_refl; auto.
  intros x _. apply numJsonEqb_refl.
Qed.

Lemma layerJsonEqb_refl (l : Layer.t) : layerJsonEqb l l = true.
Proof.
  induction l as [i n t v o c tr ch IH] using Layer_nested_ind.
  simpl. rewrite !String.eqb_refl, eqb_reflx, numJsonEqb_refl,
    coordsJsonEqb_refl, transformJsonEqb_refl. simpl.
  destruct ch as [cs|]; [|reflexivity].
  specialize (IH cs eq_refl).
  induction IH as [|x xs Hx _ IHxs]; [reflexivity|].
  rewrite Hx, IHxs. reflexivity.
Qed.

Lemma payloadJsonEqb_refl (p : TransformedPayload) : payloadJsonEqb p p = true.
Proof.
  unfold payloadJsonEqb.
  rewrite !optJsonEqb_refl; try reflexivity; intros x _;
    try apply String.eqb_refl; try apply eqb_reflx; try apply Z.eqb_refl.
  - apply listJsonEqb_refl, Forall_forall. intros; apply String.eqb_refl.
  - apply listJsonEqb_refl, Forall_forall. intros; apply layerJsonEqb_refl.
Qed.

(** ** Reading fields through the structural comparison *)

Lemma optJsonEqb_eq {A} (eqb : A -> A -> bool) (a b : option A) :
  (forall x y, eqb x y = true -> x = y) ->
  optJsonEqb eqb a b = true -> a = b.
Proof.
  intros Heq. destruct a, b; simpl; try discriminate; [|reflexivity].
  intros H. f_equal. apply Heq, H.
Qed.

Lemma boolEqb_eq (x y : bool) : Bool.eqb x y = true -> x = y.
Proof. apply eqb_prop. Qed.

Lemma stringEqb_eq (x y : string) : String.eqb x y = true -> x = y.
Proof. apply String.eqb_eq. Qed.

Lemma payloadJsonEqb_fields (a b : TransformedPayload) :
  payloadJsonEqb a b = true ->
  status a = status b
  /\ previewUrl a = previewUrl b
  /\ isConfirmed a = isConfirmed b
  /\ isTransient a = isTransient b
  /\ isSynthesizing a = isSynthesizing b
  /\ requiresGeneration a = requiresGeneration b
  /\ generationId a = generationId b
  /\ generationAllowed a = generationAllowed b
  /\ isPolished a = isPolished b.
Proof.
  unfold payloadJsonEqb. intros H.
  repeat (apply andb_true_iff in H as [H ?]).
  repeat split;
    first [ eapply optJsonEqb_eq; [apply stringEqb_eq | eassumption]
          | eapply optJsonEqb_eq; [apply boolEqb_eq | eassumption]
          | eapply optJsonEqb_eq; [apply Z.eqb_eq | eassumption] ].
Qed.

(** ** Slots *)

Lemma readSlot_storeSlot {V} (prev : gmap string (gmap string V))
    (nodeId handleId : string) (v : V) :
  readSlot (storeSlot prev nodeId handleId v) nodeId handleId = Some v.
Proof.
  unfold readSlot, storeSlot, nodeRecordOf.
  rewrite lookup_insert_eq. simpl. apply lookup_insert_eq.
Qed.

Lemma readSlot_storeSlot_Some {V} (prev : gmap string (gmap string V))
    (n h n' h' : string) (v w : V) :
  readSlot (storeSlot prev n h v) n' h' = Some w ->
  w = v \/ readSlot prev n' h' = Some w.
Proof.
  unfold readSlot, storeSlot, nodeRecordOf.
  destruct (decide (n = n')) as [<-|Hn].
  - rewrite lookup_insert_eq. simpl.
    destruct (decide (h = h')) as [<-|Hh].
    + rewrite lookup_insert_eq. intros [= <-]. left; reflexivity.
    + rewrite lookup_insert_ne by assumption. right; assumption.
  - rewrite lookup_insert_ne by assumption. right; assumption.
Qed.

Lemma readSlot_lookup {V} (prev : gmap string (gmap string V))
    (n h : string) (v : V) :
  readSlot prev n h = Some v <->
  exists nodeRecord, prev !! n = Some nodeRecord /\ nodeRecord !! h = Some v.
Proof.
  unfold readSlot, nodeRecordOf. split.
  - destruct (prev !! n) as [rec|]; simpl; [eauto|].
    rewrite lookup_empty. discriminate.
  - intros (rec & -> & Hh). exact Hh.
Qed.

(** ** What the writers read *)

Lemma slotValue_readSlot {V} (prev : gmap string (gmap string V))
    (n h : string) :
  slotValue prev n h
  = match readSlot prev n h with
    | Some v => JS.Own v
    | None => JS.fromPrototype h
    end.
Proof. reflexivity. Qed.

Lemma slotValue_own {V} (prev : gmap string (gmap string V))
    (n h : string) (v : V) :
  readSlot prev n h = Some v -> slotValue prev n h = JS.Own v.
Proof. intros Hv. rewrite slotValue_readSlot, Hv. reflexivity. Qed.

Lemma slotValue_storeSlot {V} (prev : gmap string (gmap string V))
    (n h : string) (v : V) :
  slotValue (storeSlot prev n h v) n h = JS.Own v.
Proof. apply slotValue_own, readSlot_storeSlot. Qed.

Lemma fromPrototype_plain {V} (h : string) :
  JS.inherited h = false -> @JS.fromPrototype V h = JS.Undefined.
Proof.
  unfold JS.inherited, JS.fromPrototype. intros Hh.
  apply orb_false_iff in Hh as [-> ->]. reflexivity.
Qed.

Lemma slotValue_plain {V} (prev : gmap string (gmap string V))
    (n h : string) :
  JS.inherited h = false ->
  slotValue prev n h
  = match readSlot prev n h with
    | Some v => JS.Own v
    | None => JS.Undefined
    end.
Proof.
  intros Hh. rewrite slotValue_readSlot.
  destruct (readSlot prev n h); [reflexivity | apply fromPrototype_plain, Hh].
Qed.

(** A member inherited from [Object.prototype], read as a payload, has no
    field. *)
Lemma readAsPayload_fromPrototype (h : string) (c : TransformedPayload) :
  readAsPayload (JS.fromPrototype h) = Some c -> c = emptyPayload.
Proof.
  unfold JS.fromPrototype.
  destruct (existsb _ _); [intros [= <-]; reflexivity|].
  destruct (String.eqb h "__proto__"); [intros [= <-]; reflexivity|].
  discriminate.
Qed.

Lemma readAsPayload_slotValue
    (prev : gmap string (gmap string TransformedPayload))
    (n h : string) (c : TransformedPayload) :
  readAsPayload (slotValue prev n h) = Some c ->
  readSlot prev n h = Some c \/ c = emptyPayload.
Proof.
  rewrite slotValue_readSlot.
  destruct (readSlot prev n h) as [c0|]; simpl.
  - intros [= <-]. left; reflexivity.
  - intros Hc. right. eapply readAsPayload_fromPrototype, Hc.
Qed.

(** A reconciled payload is never [{}]: every rule sets a flag, or hands
    back a stored payload with a generation id. *)
Lemma reconcile_nonempty (i : TransformedPayload)
    (c : option TransformedPayload) (r : TransformedPayload) :
  reconcileTerminalState i c = Returns r ->
  payloadJsonEqb emptyPayload r = false.
Proof.
  intros Hr. destruct (payloadJsonEqb emptyPayload r) eqn:Heq; [|reflexivity].
  exfalso. apply payloadJsonEqb_fields in Heq
    as (_ & _ & Hic & _ & His & _ & Hgid & Hga & _).
  simpl in Hic, His, Hgid, Hga. revert Hr. unfold reconcileTerminalState.
  destruct (JS.isFalse _).
  { destruct (layers i); [|discriminate]. intros [= <-].
    destruct i; discriminate Hic. }
  destruct (isForced i && _).
  { intros [= <-]. destruct i; discriminate Hic. }
  destruct (staleGuard i c) as [c0|] eqn:Hs.
  { intros [= <-]. unfold staleGuard in Hs.
    destruct c as [c1|]; [|discriminate].
    destruct (JS.truthyNum (generationId c1)) eqn:Hg; simpl in Hs;
      [|discriminate].
    destruct (_ && _) in Hs; [|discriminate]. injection Hs as <-.
    rewrite <- Hgid in Hg. discriminate Hg. }
  destruct (bool_decide _).
  { intros [= <-]. destruct i; discriminate Hic. }
  destruct (JS.truthyBool (isSynthesizing i)).
  { intros [= <-]. destruct (default i c); discriminate His. }
  destruct (_ && _); intros [= <-]; destruct i; discriminate Hga.
Qed.

(** What a slot holds after a commit: the reconciled payload, or the stored
    one when the two have the same image. *)
Lemma readSlot_commitPayload
    (prev : gmap string (gmap string TransformedPayload))
    (n h : string) (r : TransformedPayload) :
  payloadJsonEqb emptyPayload r = false ->
  exists r',
    readSlot (commitPayload prev n h (slotValue prev n h) r) n h = Some r'
    /\ (r' = r
        \/ readSlot prev n h = Some r' /\ payloadJsonEqb r' r = true).
Proof.
  intros Hne. unfold commitPayload. rewrite slotValue_readSlot.
  destruct (readSlot prev n h) as [c|] eqn:Hc; simpl.
  - destruct (payloadJsonEqb c r) eqn:Heq.
    + exists c. auto.
    + exists r. split; [apply readSlot_storeSlot | auto].
  - assert (Hdiff : sameImage (JS.fromPrototype h) r = false).
    { unfold JS.fromPrototype. destruct (existsb _ _); [reflexivity|].
      destruct (String.eqb h "__proto__"); [exact Hne | reflexivity]. }
    rewrite Hdiff. exists r. split; [apply readSlot_storeSlot | auto].
Qed.

(** ** Change suppression *)

Lemma commitPayload_same
    (prev : gmap string (gmap string TransformedPayload))
    (n h : string) (r : TransformedPayload) :
  commitPayload prev n h (JS.Own r) r = prev.
Proof.
  unfold commitPayload. simpl. rewrite payloadJsonEqb_refl. reflexivity.
Qed.

Lemma reconcile_commit_twice (eff : TransformedPayload)
    (prev : gmap string (gmap string TransformedPayload))
    (n h : string) (r : TransformedPayload) :
  reconcileTerminalState eff (readAsPayload (slotValue prev n h))
  = Returns r ->
  let reg := commitPayload prev n h (slotValue prev n h) r in
  obind (reconcileTerminalState eff (readAsPayload (slotValue reg n h)))
    (fun r' => Returns (commitPayload reg n h (slotValue reg n h) r'))
  = Returns reg.
Proof.
  intros Hr reg. subst reg.
  destruct (sameImage (slotValue prev n h) r) eqn:Heq.
  - assert (Hsame : commitPayload prev n h (slotValue prev n h) r = prev)
      by (unfold commitPayload; rewrite Heq; reflexivity).
    rewrite Hsame, Hr. simpl. rewrite Hsame. reflexivity.
  - assert (Hstore : commitPayload prev n h (slotValue prev n h) r
                     = storeSlot prev n h r)
      by (unfold commitPayload; rewrite Heq; reflexivity).
    rewrite Hstore, slotValue_storeSlot. simpl readAsPayload.
    rewrite (reconcile_absorb _ _ _ Hr). simpl.
    rewrite commitPayload_same. reflexivity.
Qed.

Lemma registerPayloadUpdater_twice (n h : string) (p : TransformedPayload)
    (mo : option bool)
    (prev r1 : gmap string (gmap string TransformedPayload)) :
  registerPayloadUpdater n h p mo prev = Returns r1 ->
  registerPayloadUpdater n h p mo r1 = Returns r1.
Proof.
  unfold registerPayloadUpdater.
  destruct (reconcileTerminalState _ (readAsPayload (slotValue prev n h)))
    as [r|] eqn:Hr; simpl; [|discriminate].
  intros [= <-]. apply (reconcile_commit_twice _ _ _ _ _ Hr).
Qed.

(** C6 (amended). Change suppression: when a write of a payload to a slot
    returns, writing the same payload again to that slot returns the store it
    was given: of the two writes, at most the first changes the store. *)
Theorem second_write_is_noop (nodeId handleId : string)
    (payload : TransformedPayload) (masterOverride : option bool)
    (st st1 : ProceduralState) :
  registerPayload nodeId handleId payload masterOverride st = Returns st1 ->
  registerPayload nodeId handleId payload masterOverride st1 = Returns st1.
Proof.
  unfold registerPayload.
  destruct (registerPayloadUpdater _ _ _ _ (payloadRegistry st))
    as [r1|] eqn:Hw; simpl; [|discriminate].
  intros [= <-]. destruct st; simpl in *.
  rewrite (registerPayloadUpdater_twice _ _ _ _ _ _ Hw). reflexivity.
Qed.

(** ** The out-of-order delivery scenario *)

Lemma registerPayload_slot (nodeId handleId : string)
    (payload : TransformedPayload) (st : ProceduralState)
    (current : option TransformedPayload) (r : TransformedPayload) :
  readAsPayload (slotValue (payloadRegistry st) nodeId handleId) = current ->
  reconcileTerminalState payload current = Returns r ->
  exists st' r',
    registerPayload nodeId handleId payload None st = Returns st'
    /\ readSlot (payloadRegistry st') nodeId handleId = Some r'
    /\ (r' = r
        \/ readSlot (payloadRegistry st) nodeId handleId = Some r'
           /\ payloadJsonEqb r' r = true).
Proof.
  intros Hcur Hr. unfold registerPayload, registerPayloadUpdater. simpl.
  rewrite Hcur, Hr. simpl.
  destruct (readSlot_commitPayload (payloadRegistry st) nodeId handleId r
              (reconcile_nonempty _ _ _ Hr)) as (r' & Hslot & Hr').
  do 2 eexists. split; [reflexivity|]. simpl. split; [exact Hslot|].
  exact Hr'.
Qed.

(** C5. Starting from an empty slot, the writes [synthesisStarted],
    [synthesisDone] and the late [lateOldGeneration] all return, and the slot
    then holds a payload with previewUrl ['A'] and generationId [1]. *)
Theorem out_of_order_delivery (nodeId handleId : string)
    (st : ProceduralState) :
  readSlot (payloadRegistry st) nodeId handleId = None ->
  exists st3 r,
    andThen
      (andThen (registerPayload nodeId handleId synthesisStarted None st)
               (registerPayload nodeId handleId synthesisDone None))
      (registerPayload nodeId handleId lateOldGeneration None)
    = Returns st3
    /\ readSlot (payloadRegistry st3) nodeId handleId = Some r
    /\ previewUrl r = Some "A"
    /\ generationId r = Some 1%Z.
Proof.
  intros Hempty. unfold andThen.
  assert (Hfirst : exists st1 r1,
    registerPayload nodeId handleId synthesisStarted None st = Returns st1
    /\ readSlot (payloadRegistry st1) nodeId handleId = Some r1
    /\ generationAllowed r1 = Some true
    /\ generationId r1 = None
    /\ sourceReference r1 = None).
  { destruct (readAsPayload
                (slotValue (payloadRegistry st) nodeId handleId))
      as [c|] eqn:Hcur.
    - assert (c = emptyPayload) as ->.
      { apply readAsPayload_slotValue in Hcur as [Hc|Hc]; [|exact Hc].
        rewrite Hempty in Hc. discriminate. }
      destruct (registerPayload_slot nodeId handleId synthesisStarted st
                  _ _ Hcur eq_refl)
        as (st1 & r1 & Hw & Hslot1 & [->|[Hc _]]);
        [|rewrite Hempty in Hc; discriminate].
      exists st1. eexists. split; [exact Hw|]. split; [exact Hslot1|].
      repeat split.
    - destruct (registerPayload_slot nodeId handleId synthesisStarted st
                  _ _ Hcur eq_refl)
        as (st1 & r1 & Hw & Hslot1 & [->|[Hc _]]);
        [|rewrite Hempty in Hc; discriminate].
      exists st1. eexists. split; [exact Hw|]. split; [exact Hslot1|].
      repeat split. }
  destruct Hfirst as (st1 & r1 & -> & Hslot1 & Hga1 & Hgid1 & Hsr1).
  simpl obind.
  assert (Hr2 : exists r2,
    reconcileTerminalState synthesisDone (Some r1) = Returns r2
    /\ previewUrl r2 = Some "A" /\ generationId r2 = Some 1%Z
    /\ isSynthesizing r2 = Some false).
  { unfold reconcileTerminalState, staleGuard. simpl. rewrite Hgid1. simpl.
    eexists. split; [reflexivity|]. repeat split. }
  destruct Hr2 as (r2 & Hr2 & Hpu2 & Hgid2 & Hsyn2).
  destruct (registerPayload_slot nodeId handleId synthesisDone st1
              _ _ (f_equal readAsPayload (slotValue_own _ _ _ _ Hslot1))
              Hr2)
    as (st2 & r2' & -> & Hslot2 & Hr2').
  assert (Hfields2 : previewUrl r2' = Some "A"
                     /\ generationId r2' = Some 1%Z).
  { destruct Hr2' as [->|[_ Heq]]; [auto|].
    apply payloadJsonEqb_fields in Heq
      as (_ & Hpu & _ & _ & _ & _ & Hgid & _). split; congruence. }
  destruct Hfields2 as [Hpu2' Hgid2'].
  simpl obind.
  assert (Hr3 : exists r3,
    reconcileTerminalState lateOldGeneration (Some r2') = Returns r3
    /\ previewUrl r3 = Some "A" /\ generationId r3 = Some 1%Z).
  { unfold reconcileTerminalState, staleGuard. simpl.
    rewrite Hgid2', Hpu2'. simpl.
    eexists. split; [reflexivity|]. split; reflexivity. }
  destruct Hr3 as (r3 & Hr3 & Hpu3 & Hgid3).
  destruct (registerPayload_slot nodeId handleId lateOldGeneration st2
              _ _ (f_equal readAsPayload (slotValue_own _ _ _ _ Hslot2))
              Hr3)
    as (st3 & r3' & -> & Hslot3 & Hr3').
  exists st3, r3'. split; [reflexivity|]. split; [exact Hslot3|].
  destruct Hr3' as [->|[Hc Heq]]; [auto|].
  rewrite Hslot2 in Hc. injection Hc as <-. auto.
Qed.

(** ** Producer removal *)

Lemma omitNode_gone {V} (nodeId : string) (prev : gmap string V) :
  omitNode nodeId prev !! nodeId = None.
Proof. apply lookup_delete_eq. Qed.

Lemma omitNode_other {V} (nodeId other : string) (prev : gmap string V) :
  other <> nodeId -> omitNode nodeId prev !! other = prev !! other.
Proof. intros Hne. apply lookup_delete_ne. congruence. Qed.

Lemma omitNodeIfPresent_gone {V} (nodeId : string) (prev : gmap string V) :
  omitNodeIfPresent nodeId prev !! nodeId = None.
Proof.
  unfold omitNodeIfPresent, JS.get.
  destruct (prev !! nodeId) eqn:Hn; [apply omitNode_gone|].
  destruct (JS.fromPrototype nodeId); try apply omitNode_gone. exact Hn.
Qed.

Lemma omitNodeIfPresent_other {V} (nodeId other : string)
    (prev : gmap string V) :
  other <> nodeId -> omitNodeIfPresent nodeId prev !! other = prev !! other.
Proof.
  intros Hne. unfold omitNodeIfPresent.
  destruct (JS.get prev nodeId); try (apply omitNode_other; exact Hne).
  reflexivity.
Qed.

(** C7. Producer removal: [unregisterNode] leaves no entry under the node id
    in any of the eight registries, leaves the entries of every other node
    as they were, and increments [globalVersion] by exactly one, whatever the
    store held for the node. *)
Theorem unregisterNode_purges (nodeId : string) (st : ProceduralState) :
  let st' := unregisterNode nodeId st in
  (psdRegistry st' !! nodeId = None
   /\ templateRegistry st' !! nodeId = None
   /\ resolvedRegistry st' !! nodeId = None
   /\ payloadRegistry st' !! nodeId = None
   /\ reviewerRegistry st' !! nodeId = None
   /\ previewRegistry st' !! nodeId = None
   /\ analysisRegistry st' !! nodeId = None
   /\ knowledgeRegistry st' !! nodeId = None)
  /\ (forall other, other <> nodeId ->
        psdRegistry st' !! other = psdRegistry st !! other
        /\ templateRegistry st' !! other = templateRegistry st !! other
        /\ resolvedRegistry st' !! other = resolvedRegistry st !! other
        /\ payloadRegistry st' !! other = payloadRegistry st !! other
        /\ reviewerRegistry st' !! other = reviewerRegistry st !! other
        /\ previewRegistry st' !! other = previewRegistry st !! other
        /\ analysisRegistry st' !! other = analysisRegistry st !! other
        /\ knowledgeRegistry st' !! other = knowledgeRegistry st !! other)
  /\ globalVersion st' = (globalVersion st + 1)%Z.
Proof.
  simpl. split; [|split; [|reflexivity]].
  - repeat split;
      first [apply omitNode_gone | apply omitNodeIfPresent_gone].
  - intros other Hne. repeat split;
      first [apply omitNode_other | apply omitNodeIfPresent_other];
      exact Hne.
Qed.

(** ** Partial writes *)

Lemma spreadPartial_overlays (c : TransformedPayload)
    (partial : PartialPayload) :
  overlays (spreadPartial c partial) c partial.
Proof.
  destruct partial as [a1 a2 a3 a4 a5 a6 a7 a8 a9 a10 a11 a12 a13 a14 a15 a16].
  unfold overlays, spreadPartial, spreadKey. simpl.
  repeat split;
    match goal with
    | |- _ = from_option _ _ ?x => destruct x; reflexivity
    end.
Qed.

Lemma asPayload_overlays (partial : PartialPayload) :
  overlays (asPayload partial) emptyPayload partial.
Proof.
  destruct partial as [a1 a2 a3 a4 a5 a6 a7 a8 a9 a10 a11 a12 a13 a14 a15 a16].
  unfold overlays, asPayload. simpl.
  repeat split;
    match goal with
    | |- _ = from_option _ _ ?x => destruct x; reflexivity
    end.
Qed.

(** X23. A partial write is the write of the merged payload.  On a slot
    that holds a payload, [updatePayload] is [registerPayload] of that payload
    with the keys of the partial laid over it.  On a slot that holds none,
    under ids that do not name a member of [Object.prototype], it returns the
    store it was given when the partial has neither a [sourceContainer] nor a
    [previewUrl] (absent, [undefined] or empty), and else it is
    [registerPayload] of the partial itself. *)
Theorem updatePayload_is_merged_write (nodeId handleId : string)
    (partial : PartialPayload) (st : ProceduralState) :
  (forall c,
     readSlot (payloadRegistry st) nodeId handleId = Some c ->
     exists merged,
       overlays merged c partial
       /\ updatePayload nodeId handleId partial st
          = registerPayload nodeId handleId merged None st)
  /\ (JS.inherited nodeId = false ->
      JS.inherited handleId = false ->
      readSlot (payloadRegistry st) nodeId handleId = None ->
      (JS.truthyStr (mjoin (p_sourceContainer partial)) = false ->
       JS.truthyStr (mjoin (p_previewUrl partial)) = false ->
       updatePayload nodeId handleId partial st = Returns st)
      /\ (JS.truthyStr (mjoin (p_sourceContainer partial))
          || JS.truthyStr (mjoin (p_previewUrl partial)) = true ->
          exists merged,
            overlays merged emptyPayload partial
            /\ updatePayload nodeId handleId partial st
               = registerPayload nodeId handleId merged None st)).
Proof.
  unfold updatePayload, registerPayload, updatePayloadUpdater,
    registerPayloadUpdater.
  split.
  - intros c Hc. exists (spreadPartial c partial).
    split; [apply spreadPartial_overlays|].
    rewrite (slotValue_own _ _ _ _ Hc). reflexivity.
  - intros _ Hplain Hnone.
    rewrite (slotValue_plain _ _ _ Hplain), Hnone. simpl. split.
    + intros -> ->. simpl. destruct st; reflexivity.
    + intros Hid. exists (asPayload partial).
      split; [apply asPayload_overlays|].
      apply orb_true_iff in Hid.
      replace (negb (JS.truthyStr (mjoin (p_sourceContainer partial)))
               && negb (JS.truthyStr (mjoin (p_previewUrl partial))))
        with false
        by (destruct Hid as [-> | ->]; rewrite ?andb_false_r; reflexivity).
      reflexivity.
Qed.

(** ** The reviewer registry *)

Lemma staleGuard_Some (i : TransformedPayload)
    (c : option TransformedPayload) (c0 : TransformedPayload) :
  staleGuard i c = Some c0 -> c = Some c0.
Proof.
  unfold staleGuard. destruct c as [c1|]; [|discriminate].
  destruct (_ && _); [|discriminate]. intros [= <-]. reflexivity.
Qed.

Lemma reconcile_polished (i : TransformedPayload)
    (c : option TransformedPayload) (r : TransformedPayload) :
  isPolished i = Some true ->
  (forall c0, c = Some c0 -> isPolished c0 = Some true) ->
  reconcileTerminalState i c = Returns r ->
  isPolished r = Some true.
Proof.
  intros Hi Hc. unfold reconcileTerminalState.
  destruct (JS.isFalse _).
  { destruct (layers i); [|discriminate]. intros [= <-].
    destruct i; exact Hi. }
  destruct (isForced i && _).
  { intros [= <-]. destruct i; exact Hi. }
  destruct (staleGuard i c) as [c0|] eqn:Hs.
  { intros [= <-]. apply Hc. eapply staleGuard_Some, Hs. }
  destruct (bool_decide _).
  { intros [= <-]. destruct i; exact Hi. }
  destruct (JS.truthyBool (isSynthesizing i)).
  { intros [= <-]. destruct c as [c0|]; simpl.
    - specialize (Hc c0 eq_refl). destruct c0; exact Hc.
    - destruct i; exact Hi. }
  destruct (_ && _); intros [= <-]; destruct i; exact Hi.
Qed.

Lemma reviewerUpdater_polished (nodeId handleId : string)
    (payload : TransformedPayload)
    (prev reg : gmap string (gmap string TransformedPayload)) :
  JS.inherited handleId = false ->
  allPolished prev ->
  reviewerUpdater nodeId handleId payload prev = Returns reg ->
  allPolished reg.
Proof.
  intros Hplain Hprev. unfold reviewerUpdater.
  rewrite (slotValue_plain _ _ _ Hplain).
  destruct (reconcileTerminalState _ _) as [r|] eqn:Hr; [|discriminate].
  simpl. intros [= <-].
  assert (Hpol : isPolished r = Some true).
  { eapply reconcile_polished; [| |exact Hr].
    - destruct payload; reflexivity.
    - intros c0 Hc0. apply (Hprev nodeId handleId).
      destruct (readSlot prev nodeId handleId); [exact Hc0 | discriminate]. }
  assert (Hstore : allPolished (storeSlot prev nodeId handleId r)).
  { intros n h p Hp. apply readSlot_storeSlot_Some in Hp as [->|Hp];
      [exact Hpol | eapply Hprev, Hp]. }
  unfold commitPayload. destruct (sameImage _ r); assumption.
Qed.

Lemma omitNode_polished (nodeId : string)
    (prev : gmap string (gmap string TransformedPayload)) :
  allPolished prev -> allPolished (omitNode nodeId prev).
Proof.
  intros Hprev n h p Hp. apply (Hprev n h).
  apply readSlot_lookup in Hp as (rec & Hn & Hh).
  apply readSlot_lookup. exists rec. split; [|exact Hh].
  unfold omitNode in Hn. apply lookup_delete_Some in Hn as [_ Hn]. exact Hn.
Qed.

Lemma perform_polished (a : Action) (st st' : ProceduralState) :
  plainReview a = true ->
  allPolished (reviewerRegistry st) ->
  perform a st = Returns st' ->
  allPolished (reviewerRegistry st').
Proof.
  intros Hplain Hst.
  destruct a; simpl; try (intros [= <-]; exact Hst).
  - unfold registerPayload.
    destruct (registerPayloadUpdater _ _ _ _ _); simpl; [|discriminate].
    intros [= <-]. exact Hst.
  - simpl in Hplain. apply andb_true_iff in Hplain as [_ Hh].
    apply negb_true_iff in Hh. unfold registerReviewerPayload.
    destruct (reviewerUpdater _ _ _ _) eqn:Hw; simpl; [|discriminate].
    intros [= <-]. simpl. eapply reviewerUpdater_polished; eassumption.
  - simpl in Hplain. apply andb_true_iff in Hplain as [_ Hh].
    apply negb_true_iff in Hh. unfold registerPreviewPayload. simpl.
    destruct (reviewerUpdater _ _ _ _) eqn:Hw; simpl; [|discriminate].
    intros [= <-]. simpl. eapply reviewerUpdater_polished; eassumption.
  - unfold updatePayload.
    destruct (updatePayloadUpdater _ _ _ _); simpl; [|discriminate].
    intros [= <-]. exact Hst.
  - intros [= <-]. simpl. apply omitNode_polished, Hst.
Qed.

Lemma performAll_throws (actions : list Action) :
  fold_left (fun o a => obind o (perform a)) actions Throws = Throws.
Proof. induction actions as [|a actions IH]; simpl; auto. Qed.

Lemma performAll_polished (actions : list Action)
    (st st' : ProceduralState) :
  forallb plainReview actions = true ->
  allPolished (reviewerRegistry st) ->
  performAll actions st = Returns st' ->
  allPolished (reviewerRegistry st').
Proof.
  unfold performAll. revert st.
  induction actions as [|a actions IH]; intros st; simpl.
  - intros _ Hst [= <-]. exact Hst.
  - intros Hplain Hst. apply andb_true_iff in Hplain as [Ha Hrest].
    destruct (perform a st) as [st1|] eqn:Hstep; simpl.
    + apply IH; [exact Hrest|].
      eapply perform_polished; eassumption.
    + rewrite performAll_throws. discriminate.
Qed.

(** X24. The polish invariant of the reviewer registry: after any sequence
    of calls on a fresh store that return, in which the writes to the
    reviewer registry go to slots whose ids do not name a member of
    [Object.prototype], every payload the reviewer registry holds has
    [isPolished = true], whichever rule of the reconciler produced it. *)
Theorem reviewer_registry_polished_plain (actions : list Action)
    (st : ProceduralState) :
  forallb plainReview actions = true ->
  performAll actions initialState = Returns st ->
  forall nodeId handleId nodeRecord p,
    reviewerRegistry st !! nodeId = Some nodeRecord ->
    nodeRecord !! handleId = Some p ->
    isPolished p = Some true.
Proof.
  intros Hplain Hrun.
  assert (Hall : allPolished (reviewerRegistry st)).
  { eapply performAll_polished; [exact Hplain| |exact Hrun].
    intros n h p Hp. apply readSlot_lookup in Hp as (rec & Hn & _).
    simpl in Hn. rewrite lookup_empty in Hn. discriminate. }
  intros n h rec p Hn Hh. apply (Hall n h).
  apply readSlot_lookup. eauto.
Qed.

(** ** Overrides *)

Lemma idTree_updateLayer (overrides : list LayerOverride.t) (l : Layer.t) :
  idTree (updateLayer overrides l) = idTree l.
Proof.
  induction l as [i n t v o c tr ch IH] using Layer_nested_ind.
  assert (Hch : match ch with
                | Some cs => Some (List.map idTree
                                     (List.map (updateLayer overrides) cs))
                | None => None
                end
                = match ch with
                  | Some cs => Some (List.map idTree cs)
                  | None => None
                  end).
  { destruct ch as [cs|]; [|reflexivity]. f_equal.
    specialize (IH cs eq_refl).
    induction IH as [|x xs Hx _ IHxs]; simpl; [reflexivity|].
    rewrite Hx, IHxs. reflexivity. }
  simpl. destruct (List.find _ overrides); simpl;
    destruct ch; simpl in *; congruence.
Qed.

Lemma subLayers_updateLayer (overrides : list LayerOverride.t) (l : Layer.t) :
  subLayers (updateLayer overrides l)
  = List.map (updateLayer overrides) (subLayers l).
Proof.
  induction l as [i n t v o c tr ch IH] using Layer_nested_ind.
  assert (Hch : match ch with
                | Some cs => List.flat_map subLayers
                               (List.map (updateLayer overrides) cs)
                | None => []
                end
                = List.map (updateLayer overrides)
                    match ch with
                    | Some cs => List.flat_map subLayers cs
                    | None => []
                    end).
  { destruct ch as [cs|]; [|reflexivity].
    specialize (IH cs eq_refl).
    induction IH as [|x xs Hx _ IHxs]; simpl; [reflexivity|].
    rewrite Hx, IHxs, List.map_app. reflexivity. }
  simpl. destruct (List.find _ overrides); simpl;
    destruct ch; simpl in *; rewrite <- ?Hch; reflexivity.
Qed.

Lemma allLayers_deepUpdate (overrides : list LayerOverride.t)
    (ls : list Layer.t) :
  allLayers (deepUpdate overrides ls)
  = List.map (updateLayer overrides) (allLayers ls).
Proof.
  unfold allLayers, deepUpdate.
  induction ls as [|l ls IH]; simpl; [reflexivity|].
  rewrite subLayers_updateLayer, IH, List.map_app. reflexivity.
Qed.

Lemma idTree_deepUpdate (overrides : list LayerOverride.t)
    (ls : list Layer.t) :
  List.map idTree (deepUpdate overrides ls) = List.map idTree ls.
Proof.
  unfold deepUpdate. induction ls as [|l ls IH]; simpl; [reflexivity|].
  rewrite idTree_updateLayer, IH. reflexivity.
Qed.

(** C10. [applyOverridesToPayload] arithmetic: for a layer anywhere in the
    tree of a payload, with coordinates (x:10, y:10, w:100, h:50), whose
    override is [{xOffset:5, yOffset:-5, individualScale:0.9}], the call
    returns a payload in which every layer of the tree is replaced, in
    place, by its update, the nesting of the layer ids is the one of the
    input, and the update of the layer has the coordinates
    (x:15, y:5, w:90, h:45). *)
Theorem applyOverrides_nudges_layer
    (payload : TransformedPayload) (overrides : list LayerOverride.t)
    (ls : list Layer.t) (l : Layer.t) (ov : LayerOverride.t) :
  layers payload = Some ls ->
  In l (allLayers ls) ->
  List.find (fun o => String.eqb (LayerOverride.layerId o) (Layer.id l))
    overrides = Some ov ->
  Layer.coords l = Coords.mk 10 10 100 50 ->
  LayerOverride.xOffset ov = 5%float ->
  LayerOverride.yOffset ov = (-5)%float ->
  LayerOverride.individualScale ov = Some 0.9%float ->
  exists r ls',
    applyOverridesToPayload payload overrides = Returns r
    /\ layers r = Some ls'
    /\ List.map idTree ls' = List.map idTree ls
    /\ allLayers ls' = List.map (updateLayer overrides) (allLayers ls)
    /\ In (updateLayer overrides l) (allLayers ls')
    /\ Layer.coords (updateLayer overrides l) = Coords.mk 15 5 90 45.
Proof.
  intros Hls Hin Hfind Hcoords Hx Hy Hscale.
  unfold applyOverridesToPayload. rewrite Hls.
  exists (payload |> set_layers (Some (deepUpdate overrides ls))
                  |> set_isPolished (Some true)),
         (deepUpdate overrides ls).
  split; [reflexivity|]. split; [destruct payload; reflexivity|].
  split; [apply idTree_deepUpdate|].
  split; [apply allLayers_deepUpdate|].
  split.
  - rewrite allLayers_deepUpdate. apply List.in_map, Hin.
  - destruct l as [i n t v o c tr ch]. simpl in *.
    rewrite Hfind. simpl. rewrite Hcoords, Hx, Hy, Hscale. reflexivity.
Qed.

(** ** When a write raises *)

Lemma isFalse_true (b : option bool) : JS.isFalse b = true <-> b = Some false.
Proof. destruct b as [[|]|]; simpl; split; congruence. Qed.

Lemma reconcile_throws_iff (i : TransformedPayload)
    (c : option TransformedPayload) :
  reconcileTerminalState i c = Throws
  <-> generationAllowed i = Some false /\ layers i = None.
Proof.
  unfold reconcileTerminalState.
  destruct (JS.isFalse (generationAllowed i)) eqn:Hga.
  - apply isFalse_true in Hga. destruct (layers i); split;
      try discriminate; try tauto. intros [_ [=]].
  - assert (generationAllowed i <> Some false)
      by (intros Hf; apply isFalse_true in Hf; congruence).
    split; [|tauto].
    repeat match goal with
           | |- context [if ?b then _ else _] => destruct b
           | |- context [match ?o with Some _ => _ | None => _ end] =>
               destruct o
           end; discriminate.
Qed.

(** X1. [registerPayload] raises exactly when the payload carries no
    [layers] and generation is disallowed, by the payload or by the master
    override; in every other case it returns a store. *)
Theorem registerPayload_raises_iff (nodeId handleId : string)
    (payload : TransformedPayload) (masterOverride : option bool)
    (st : ProceduralState) :
  registerPayload nodeId handleId payload masterOverride st = Throws
  <-> (masterOverride = Some false \/ generationAllowed payload = Some false)
      /\ layers payload = None.
Proof.
  unfold registerPayload, registerPayloadUpdater.
  destruct (reconcileTerminalState _ _) as [r|] eqn:Hr; simpl.
  - split; [discriminate|]. intros [Hgate Hls].
    assert (Hthrows : reconcileTerminalState
              (if JS.isFalse masterOverride
               then payload |> set_generationAllowed (Some false)
               else payload)
              (readAsPayload
                 (slotValue (payloadRegistry st) nodeId handleId))
              = Throws).
    { apply reconcile_throws_iff.
      destruct (JS.isFalse masterOverride) eqn:Hmo.
      - destruct payload; simpl in *. auto.
      - destruct Hgate as [Hmo'|Hga]; [|auto].
        apply isFalse_true in Hmo'. congruence. }
    congruence.
  - split; [intros _|reflexivity].
    apply reconcile_throws_iff in Hr as [Hga Hls].
    destruct (JS.isFalse masterOverride) eqn:Hmo.
    + apply isFalse_true in Hmo. destruct payload; simpl in *. auto.
    + auto.
Qed.

(** ** Slots are independent *)

Lemma readSlot_storeSlot_ne {V} (prev : gmap string (gmap string V))
    (n h n' h' : string) (v : V) :
  (n, h) <> (n', h') ->
  readSlot (storeSlot prev n h v) n' h' = readSlot prev n' h'.
Proof.
  intros Hne. unfold readSlot, storeSlot, nodeRecordOf.
  destruct (decide (n = n')) as [<-|Hn].
  - rewrite lookup_insert_eq. simpl.
    apply lookup_insert_ne. congruence.
  - rewrite lookup_insert_ne by assumption. reflexivity.
Qed.

Lemma storeSlot_comm {V} (prev : gmap string (gmap string V))
    (n h n' h' : string) (v v' : V) :
  (n, h) <> (n', h') ->
  storeSlot (storeSlot prev n h v) n' h' v'
  = storeSlot (storeSlot prev n' h' v') n h v.
Proof.
  intros Hne. unfold storeSlot, nodeRecordOf.
  destruct (decide (n = n')) as [<-|Hn].
  - rewrite !lookup_insert_eq, !insert_insert_eq. simpl.
    f_equal. apply insert_insert_ne. congruence.
  - rewrite !lookup_insert_ne by congruence.
    apply insert_insert_ne. congruence.
Qed.

Lemma readSlot_commitPayload_ne
    (prev : gmap string (gmap string TransformedPayload))
    (n h n' h' : string) (c : JS.Member TransformedPayload)
    (r : TransformedPayload) :
  (n, h) <> (n', h') ->
  readSlot (commitPayload prev n h c r) n' h' = readSlot prev n' h'.
Proof.
  intros Hne. unfold commitPayload.
  destruct (sameImage c r); [reflexivity|].
  apply readSlot_storeSlot_ne, Hne.
Qed.

Lemma slotValue_commitPayload_ne
    (prev : gmap string (gmap string TransformedPayload))
    (n h n' h' : string) (c : JS.Member TransformedPayload)
    (r : TransformedPayload) :
  (n, h) <> (n', h') ->
  slotValue (commitPayload prev n h c r) n' h' = slotValue prev n' h'.
Proof.
  intros Hne. rewrite !slotValue_readSlot.
  rewrite readSlot_commitPayload_ne by exact Hne. reflexivity.
Qed.

Lemma commitPayload_comm
    (prev : gmap string (gmap string TransformedPayload))
    (n h n' h' : string) (c c' : JS.Member TransformedPayload)
    (r r' : TransformedPayload) :
  (n, h) <> (n', h') ->
  commitPayload (commitPayload prev n h c r) n' h' c' r'
  = commitPayload (commitPayload prev n' h' c' r') n h c r.
Proof.
  intros Hne. unfold commitPayload.
  destruct (sameImage c r), (sameImage c' r');
    try reflexivity; apply storeSlot_comm, Hne.
Qed.

(** X2. A [registerPayload] that returns changes nothing but its own slot:
    every other slot of the payload registry reads as before, and the other
    registries and the version counter are the ones of the store it was
    given. *)
Theorem registerPayload_frame (nodeId handleId : string)
    (payload : TransformedPayload) (masterOverride : option bool)
    (st st' : ProceduralState) :
  registerPayload nodeId handleId payload masterOverride st = Returns st' ->
  (forall n h, (nodeId, handleId) <> (n, h) ->
     readSlot (payloadRegistry st') n h = readSlot (payloadRegistry st) n h)
  /\ psdRegistry st' = psdRegistry st
  /\ templateRegistry st' = templateRegistry st
  /\ resolvedRegistry st' = resolvedRegistry st
  /\ reviewerRegistry st' = reviewerRegistry st
  /\ previewRegistry st' = previewRegistry st
  /\ analysisRegistry st' = analysisRegistry st
  /\ knowledgeRegistry st' = knowledgeRegistry st
  /\ globalVersion st' = globalVersion st.
Proof.
  unfold registerPayload, registerPayloadUpdater.
  destruct (reconcileTerminalState _ _) as [r|]; simpl; [|discriminate].
  intros [= <-]. simpl. split; [|repeat split].
  intros n h Hne. apply readSlot_commitPayload_ne, Hne.
Qed.

Lemma registerPayloadUpdater_comm (n h n' h' : string)
    (p p' : TransformedPayload) (mo mo' : option bool)
    (prev : gmap string (gmap string TransformedPayload)) :
  (n, h) <> (n', h') ->
  obind (registerPayloadUpdater n h p mo prev)
        (registerPayloadUpdater n' h' p' mo')
  = obind (registerPayloadUpdater n' h' p' mo' prev)
          (registerPayloadUpdater n h p mo).
Proof.
  intros Hne. unfold registerPayloadUpdater.
  destruct (reconcileTerminalState _ (readAsPayload (slotValue prev n h)))
    as [r|] eqn:Hr;
    destruct (reconcileTerminalState _
                (readAsPayload (slotValue prev n' h'))) as [r'|]
      eqn:Hr'; simpl.
  - rewrite !slotValue_commitPayload_ne by congruence.
    rewrite Hr, Hr'. simpl. f_equal. apply commitPayload_comm, Hne.
  - rewrite slotValue_commitPayload_ne by congruence.
    rewrite Hr'. reflexivity.
  - rewrite slotValue_commitPayload_ne by congruence.
    rewrite Hr. reflexivity.
  - reflexivity.
Qed.

(** X3. Writes to different slots commute: two [registerPayload] calls on
    distinct slots give the same outcome, store or exception, in either
    order. *)
Theorem registerPayload_commute (n h n' h' : string)
    (p p' : TransformedPayload) (mo mo' : option bool)
    (st : ProceduralState) :
  (n, h) <> (n', h') ->
  andThen (registerPayload n h p mo st) (registerPayload n' h' p' mo')
  = andThen (registerPayload n' h' p' mo' st) (registerPayload n h p mo).
Proof.
  intros Hne. unfold andThen, registerPayload.
  pose proof (registerPayloadUpdater_comm n h n' h' p p' mo mo'
                (payloadRegistry st) Hne) as Hcomm.
  destruct (registerPayloadUpdater n h p mo (payloadRegistry st))
    as [r1|] eqn:H1;
    destruct (registerPayloadUpdater n' h' p' mo' (payloadRegistry st))
      as [r2|] eqn:H2; simpl in *.
  - destruct (registerPayloadUpdater n' h' p' mo' r1) as [r12|];
      destruct (registerPayloadUpdater n h p mo r2) as [r21|];
      simpl in *; try discriminate; [|reflexivity].
    injection Hcomm as <-. destruct st; reflexivity.
  - destruct (registerPayloadUpdater n' h' p' mo' r1); simpl in *;
      [discriminate | reflexivity].
  - destruct (registerPayloadUpdater n h p mo r2); simpl in *;
      [discriminate | reflexivity].
  - reflexivity.
Qed.

(** ** The generation gate *)

Lemma keepLayer_notSynthetic (l : Layer.t) :
  keepLayer l = true -> notSynthetic l.
Proof.
  unfold keepLayer, notSynthetic. intros Hk Hty. rewrite Hty in Hk.
  simpl in Hk. apply andb_true_iff in Hk as [Hid Hpre].
  apply negb_true_iff in Hid, Hpre. split; [|exact Hpre].
  intros Heq. rewrite Heq in Hid. discriminate.
Qed.

(** A reconciled payload with the gate closed is the stored payload, handed
    back by the stale guard, or a payload the hard stop has stripped. *)
Lemma reconcile_gate_closed (i : TransformedPayload)
    (c : option TransformedPayload) (r : TransformedPayload) :
  reconcileTerminalState i c = Returns r ->
  generationAllowed r = Some false ->
  c = Some r \/ (stripped r /\ previewUrl r = None).
Proof.
  unfold reconcileTerminalState.
  destruct (JS.isFalse (generationAllowed i)) eqn:Hga.
  { destruct (layers i) as [ls|] eqn:Hls; [|discriminate].
    intros [= <-] _. right. destruct i; simpl in *.
    repeat split. exists (List.filter keepLayer ls). split; [reflexivity|].
    apply Forall_forall. intros l Hin.
    apply list_elem_of_In, List.filter_In in Hin as [_ Hk].
    apply keepLayer_notSynthetic, Hk. }
  assert (Hopen : generationAllowed i <> Some false)
    by (intros Hf; apply isFalse_true in Hf; congruence).
  destruct (isForced i && _).
  { intros [= <-] Hr. destruct i; simpl in *. contradiction. }
  destruct (staleGuard i c) as [c0|] eqn:Hs.
  { intros [= <-] _. left. eapply staleGuard_Some, Hs. }
  destruct (bool_decide _).
  { intros [= <-] Hr. destruct i; simpl in *. contradiction. }
  destruct (JS.truthyBool (isSynthesizing i)).
  { intros [= <-] Hr. destruct (default i c); discriminate Hr. }
  destruct (_ && _); intros [= <-] Hr; destruct i; discriminate Hr.
Qed.

Lemma commitPayload_inv (Q : TransformedPayload -> Prop)
    (prev : gmap string (gmap string TransformedPayload))
    (n h : string) (c : JS.Member TransformedPayload)
    (r : TransformedPayload) :
  (forall n' h' p, readSlot prev n' h' = Some p -> Q p) ->
  Q r ->
  forall n' h' p,
    readSlot (commitPayload prev n h c r) n' h' = Some p -> Q p.
Proof.
  intros Hprev Hr n' h' p. unfold commitPayload.
  destruct (sameImage c r); [apply Hprev|].
  intros Hp. apply readSlot_storeSlot_Some in Hp as [->|Hp]; eauto.
Qed.

Lemma current_inv (Q : TransformedPayload -> Prop)
    (prev : gmap string (gmap string TransformedPayload))
    (n h : string) (c : TransformedPayload) :
  (forall n' h' p, readSlot prev n' h' = Some p -> Q p) ->
  Q emptyPayload ->
  readAsPayload (slotValue prev n h) = Some c -> Q c.
Proof.
  intros Hprev Hempty Hc.
  apply readAsPayload_slotValue in Hc as [Hc| ->];
    [eapply Hprev, Hc | exact Hempty].
Qed.

Lemma gateRespected_empty : gateRespected emptyPayload.
Proof. intros Hf. discriminate Hf. Qed.

Lemma omitNode_inv {V} (Q : V -> Prop)
    (prev : gmap string (gmap string V)) (nodeId : string) :
  (forall n h p, readSlot prev n h = Some p -> Q p) ->
  forall n h p, readSlot (omitNode nodeId prev) n h = Some p -> Q p.
Proof.
  intros Hprev n h p Hp. apply (Hprev n h).
  apply readSlot_lookup in Hp as (rec & Hn & Hh).
  apply readSlot_lookup. exists rec. split; [|exact Hh].
  unfold omitNode in Hn. apply lookup_delete_Some in Hn as [_ Hn]. exact Hn.
Qed.

Lemma gateRespected_reconciled (i : TransformedPayload)
    (c : option TransformedPayload) (r : TransformedPayload) :
  (forall c0, c = Some c0 -> gateRespected c0) ->
  reconcileTerminalState i c = Returns r ->
  gateRespected r.
Proof.
  intros Hc Hr Hclosed.
  destruct (reconcile_gate_closed _ _ _ Hr Hclosed) as [->|[Hs _]];
    [apply (Hc r eq_refl Hclosed) | exact Hs].
Qed.

Lemma updatePreviewUpdater_gate (n h url : string)
    (prev : gmap string (gmap string TransformedPayload)) :
  (forall n' h' p, readSlot prev n' h' = Some p -> gateRespected p) ->
  forall n' h' p,
    readSlot (updatePreviewUpdater n h url prev) n' h' = Some p ->
    gateRespected p.
Proof.
  intros Hprev n' h' p. unfold updatePreviewUpdater.
  destruct (prev !! n) as [rec|] eqn:Hn; [|apply Hprev].
  destruct (readAsPayload (JS.get rec h)) as [c|] eqn:Hread; [|apply Hprev].
  destruct (bool_decide _); [apply Hprev|].
  assert (Hc : gateRespected c).
  { unfold JS.get in Hread. destruct (rec !! h) as [c0|] eqn:Hh.
    - injection Hread as <-. apply (Hprev n h), readSlot_lookup; eauto.
    - apply readAsPayload_fromPrototype in Hread as ->.
      intros Hf; discriminate Hf. }
  intros Hp. apply readSlot_lookup in Hp as (rec' & Hn' & Hh').
  destruct (decide (n = n')) as [<-|Hne].
  - rewrite lookup_insert_eq in Hn'. injection Hn' as <-.
    destruct (decide (h = h')) as [<-|Hhe].
    + rewrite lookup_insert_eq in Hh'. injection Hh' as <-.
      destruct c; exact Hc.
    + rewrite lookup_insert_ne in Hh' by assumption.
      apply (Hprev n h'), readSlot_lookup. eauto.
  - rewrite lookup_insert_ne in Hn' by assumption.
    apply (Hprev n' h'), readSlot_lookup. eauto.
Qed.

(** X4. The generation gate holds in every state the store can reach: a
    payload stored with [generationAllowed = false], in the payload or in
    the reviewer registry, has its confirmation, draft and synthesis flags
    and [requiresGeneration] false and no purely synthetic layer; in the
    reviewer registry it has no [previewUrl] either. *)
Theorem gate_respected_everywhere (st : ProceduralState) :
  reachable st ->
  (forall n h p, readSlot (payloadRegistry st) n h = Some p ->
     gateRespected p)
  /\ (forall n h p, readSlot (reviewerRegistry st) n h = Some p ->
        gateRespected p
        /\ (generationAllowed p = Some false -> previewUrl p = None)).
Proof.
  set (sealed := fun p : TransformedPayload =>
         gateRespected p
         /\ (generationAllowed p = Some false -> previewUrl p = None)).
  assert (Hsealed : forall i c r,
            (forall c0, c = Some c0 -> sealed c0) ->
            reconcileTerminalState i c = Returns r -> sealed r).
  { intros i c r Hc Hr. split.
    - eapply gateRespected_reconciled; [|exact Hr].
      intros c0 Hc0. apply (Hc c0 Hc0).
    - intros Hclosed.
      destruct (reconcile_gate_closed _ _ _ Hr Hclosed) as [->|[_ Hp]];
        [apply (Hc r eq_refl), Hclosed | exact Hp]. }
  assert (Hreview : forall n h p prev reg,
            (forall n' h' q, readSlot prev n' h' = Some q -> sealed q) ->
            reviewerUpdater n h p prev = Returns reg ->
            forall n' h' q, readSlot reg n' h' = Some q -> sealed q).
  { intros n h p prev reg Hprev. unfold reviewerUpdater.
    destruct (reconcileTerminalState _ _) as [r|] eqn:Hr; [|discriminate].
    simpl. intros [= <-]. apply commitPayload_inv; [exact Hprev|].
    eapply Hsealed; [|exact Hr]. intros c0 Hc0.
    eapply current_inv; [exact Hprev| |exact Hc0].
    split; [apply gateRespected_empty | intros Hf; discriminate Hf]. }
  induction 1 as [|a st st' _ [IHp IHr] Hstep].
  - split; intros n h p Hp; apply readSlot_lookup in Hp as (rec & Hn & _);
      simpl in Hn; rewrite lookup_empty in Hn; discriminate.
  - destruct a; simpl in Hstep;
      try (injection Hstep as <-; split; assumption).
    + unfold registerPayload, registerPayloadUpdater in Hstep.
      destruct (reconcileTerminalState _ _) as [r|] eqn:Hr;
        [|discriminate]. injection Hstep as <-. simpl.
      split; [|exact IHr]. apply commitPayload_inv; [exact IHp|].
      eapply gateRespected_reconciled; [|exact Hr].
      intros c0 Hc0.
      eapply current_inv; [exact IHp|apply gateRespected_empty|exact Hc0].
    + unfold registerReviewerPayload in Hstep.
      destruct (reviewerUpdater _ _ _ _) as [reg|] eqn:Hw; [|discriminate].
      injection Hstep as <-. simpl. split; [exact IHp|].
      eapply Hreview; eassumption.
    + unfold registerPreviewPayload in Hstep. simpl in Hstep.
      destruct (reviewerUpdater _ _ _ _) as [reg|] eqn:Hw; [|discriminate].
      injection Hstep as <-. simpl. split; [exact IHp|].
      eapply Hreview; eassumption.
    + unfold updatePayload, updatePayloadUpdater in Hstep.
      destruct (_ && _ && _).
      { injection Hstep as <-. destruct st; split; assumption. }
      destruct (reconcileTerminalState _ _) as [r|] eqn:Hr;
        [|discriminate]. injection Hstep as <-. simpl.
      split; [|exact IHr]. apply commitPayload_inv; [exact IHp|].
      eapply gateRespected_reconciled; [|exact Hr].
      intros c0 Hc0.
      eapply current_inv; [exact IHp|apply gateRespected_empty|exact Hc0].
    + injection Hstep as <-. simpl. split; [|exact IHr].
      apply updatePreviewUpdater_gate, IHp.
    + injection Hstep as <-. simpl.
      split; apply omitNode_inv; assumption.
Qed.

(** X5. The master override: a [registerPayload] with the master gate
    closed ([masterOverride = false]) that returns leaves in the slot a
    payload with [generationAllowed = false], no [previewUrl], the
    confirmation, draft and synthesis flags false, and the status and the
    generation id of the written payload, whatever the payload's own flag
    and whatever the slot held. *)
Theorem master_override_closes_gate (nodeId handleId : string)
    (payload : TransformedPayload) (st st' : ProceduralState) :
  registerPayload nodeId handleId payload (Some false) st = Returns st' ->
  exists r,
    readSlot (payloadRegistry st') nodeId handleId = Some r
    /\ generationAllowed r = Some false
    /\ previewUrl r = None
    /\ isConfirmed r = Some false
    /\ isTransient r = Some false
    /\ isSynthesizing r = Some false
    /\ requiresGeneration r = Some false
    /\ status r = status payload
    /\ generationId r = generationId payload.
Proof.
  unfold registerPayload, registerPayloadUpdater. simpl.
  destruct (reconcileTerminalState _ _) as [r|] eqn:Hr; [|discriminate].
  simpl. intros [= <-]. simpl.
  assert (Hfields :
    generationAllowed r = Some false /\ previewUrl r = None
    /\ isConfirmed r = Some false /\ isTransient r = Some false
    /\ isSynthesizing r = Some false /\ requiresGeneration r = Some false
    /\ status r = status payload /\ generationId r = generationId payload).
  { revert Hr. unfold reconcileTerminalState.
    destruct payload; simpl. destruct layers0; [|discriminate].
    intros [= <-]. repeat split. }
  destruct (readSlot_commitPayload (payloadRegistry st) nodeId handleId r
              (reconcile_nonempty _ _ _ Hr))
    as (r' & Hslot & [->|[_ Heq]]);
    [exists r | exists r']; (split; [exact Hslot|]).
  - exact Hfields.
  - apply payloadJsonEqb_fields in Heq
      as (Hst & Hpu & Hic & Hit & His & Hrg & Hgid & Hga & _).
    destruct Hfields as (? & ? & ? & ? & ? & ? & ? & ?).
    repeat split; congruence.
Qed.

(** ** The version counter *)

Lemma perform_version (a : Action) (st st' : ProceduralState) :
  perform a st = Returns st' ->
  globalVersion st'
  = (globalVersion st + if bumpsVersion a then 1 else 0)%Z.
Proof.
  destruct a; simpl; try (intros [= <-]; simpl; lia).
  - unfold registerPayload.
    destruct (registerPayloadUpdater _ _ _ _ _); simpl; [|discriminate].
    intros [= <-]. simpl. lia.
  - unfold registerReviewerPayload.
    destruct (reviewerUpdater _ _ _ _); simpl; [|discriminate].
    intros [= <-]. simpl. lia.
  - unfold registerPreviewPayload.
    destruct (reviewerUpdater _ _ _ _); simpl; [|discriminate].
    intros [= <-]. simpl. lia.
  - unfold updatePayload.
    destruct (updatePayloadUpdater _ _ _ _); simpl; [|discriminate].
    intros [= <-]. simpl. lia.
Qed.

(** X6. The version counter counts the removals and the refreshes: after
    any sequence of calls that return, [globalVersion] has grown by the
    number of [unregisterNode] and [triggerGlobalRefresh] calls among them;
    no registry write changes it. *)
Theorem globalVersion_counts_removals (actions : list Action)
    (st st' : ProceduralState) :
  performAll actions st = Returns st' ->
  globalVersion st'
  = (globalVersion st
     + Z.of_nat (length (List.filter bumpsVersion actions)))%Z.
Proof.
  unfold performAll. revert st.
  induction actions as [|a actions IH]; intros st; simpl.
  - intros [= <-]. lia.
  - destruct (perform a st) as [st1|] eqn:Hstep; simpl.
    + intros Hrest. rewrite (IH _ Hrest), (perform_version _ _ _ Hstep).
      destruct (bumpsVersion a); simpl length; lia.
    + rewrite performAll_throws. discriminate.
Qed.

(** ** [updatePreview] *)

Lemma setPayloadRegistry_same (st : ProceduralState) :
  setPayloadRegistry (payloadRegistry st) st = st.
Proof. destruct st; reflexivity. Qed.

Lemma set_previewUrl_same (c : TransformedPayload) (v : option string) :
  previewUrl c = v -> set_previewUrl v c = c.
Proof. intros <-. destruct c; reflexivity. Qed.

Lemma readAsPayload_inherited (h : string) :
  JS.inherited h = true ->
  readAsPayload (JS.fromPrototype h) = Some emptyPayload.
Proof.
  unfold JS.inherited, JS.fromPrototype. intros Hh.
  destruct (existsb _ _); [reflexivity|]. simpl in Hh. rewrite Hh.
  reflexivity.
Qed.

Lemma updatePreviewUpdater_missing (n h url : string)
    (prev : gmap string (gmap string TransformedPayload)) :
  JS.inherited h = false ->
  readSlot prev n h = None -> updatePreviewUpdater n h url prev = prev.
Proof.
  unfold readSlot, nodeRecordOf, updatePreviewUpdater, JS.get.
  intros Hplain. destruct (prev !! n) as [rec|]; simpl; [|reflexivity].
  intros ->. rewrite fromPrototype_plain by exact Hplain. reflexivity.
Qed.

Lemma updatePreviewUpdater_slot (n h url : string)
    (prev : gmap string (gmap string TransformedPayload))
    (c : TransformedPayload) :
  readSlot prev n h = Some c ->
  readSlot (updatePreviewUpdater n h url prev) n h
  = Some (c |> set_previewUrl (Some url)).
Proof.
  intros Hc. pose proof Hc as Hc'.
  apply readSlot_lookup in Hc' as (rec & Hn & Hh).
  unfold updatePreviewUpdater, JS.get. rewrite Hn, Hh. simpl.
  destruct (bool_decide (previewUrl c = Some url)) eqn:Hsame.
  - apply bool_decide_eq_true in Hsame.
    rewrite set_previewUrl_same by assumption. exact Hc.
  - unfold readSlot, nodeRecordOf. rewrite lookup_insert_eq. simpl.
    apply lookup_insert_eq.
Qed.

Lemma updatePreviewUpdater_other (n h url n' h' : string)
    (prev : gmap string (gmap string TransformedPayload)) :
  (n, h) <> (n', h') ->
  readSlot (updatePreviewUpdater n h url prev) n' h' = readSlot prev n' h'.
Proof.
  intros Hne. unfold updatePreviewUpdater.
  destruct (prev !! n) as [rec|] eqn:Hn; [|reflexivity].
  destruct (readAsPayload (JS.get rec h)) as [c|]; [|reflexivity].
  destruct (bool_decide _); [reflexivity|].
  unfold readSlot, nodeRecordOf.
  destruct (decide (n = n')) as [<-|Hnn].
  - rewrite lookup_insert_eq, Hn. simpl.
    apply lookup_insert_ne. congruence.
  - rewrite lookup_insert_ne by assumption. reflexivity.
Qed.

(** X7. [updatePreview] on a slot that holds no payload.  Under ids that
    do not name a member of [Object.prototype] it creates no entry: whether
    the node or only the handle is unknown, it returns the store it was
    given.  Under a handle that names such a member, on a node that has a
    record, the inherited member is taken for the stored payload and the
    slot then holds [{previewUrl: url}].  In no case is another slot
    touched. *)
Theorem updatePreview_on_empty_slot (nodeId handleId url : string)
    (st : ProceduralState) :
  (JS.inherited nodeId = false ->
   JS.inherited handleId = false ->
   readSlot (payloadRegistry st) nodeId handleId = None ->
   updatePreview nodeId handleId url st = st)
  /\ (forall nodeRecord,
        payloadRegistry st !! nodeId = Some nodeRecord ->
        nodeRecord !! handleId = None ->
        JS.inherited handleId = true ->
        readSlot (payloadRegistry (updatePreview nodeId handleId url st))
          nodeId handleId
        = Some (emptyPayload |> set_previewUrl (Some url)))
  /\ (forall n h, (nodeId, handleId) <> (n, h) ->
        readSlot (payloadRegistry (updatePreview nodeId handleId url st)) n h
        = readSlot (payloadRegistry st) n h).
Proof.
  split; [|split].
  - intros _ Hplain Hnone. unfold updatePreview.
    rewrite updatePreviewUpdater_missing by assumption.
    apply setPayloadRegistry_same.
  - intros rec Hn Hh Hinh. unfold updatePreview. destruct st; simpl in *.
    unfold updatePreviewUpdater, JS.get. rewrite Hn, Hh.
    rewrite (readAsPayload_inherited _ Hinh). simpl.
    unfold readSlot, nodeRecordOf. rewrite lookup_insert_eq. simpl.
    apply lookup_insert_eq.
  - intros n h Hne. unfold updatePreview. destruct st; simpl.
    apply updatePreviewUpdater_other, Hne.
Qed.

(** X8. [updatePreview] on an occupied slot replaces the stored payload's
    [previewUrl] by the url and keeps every other field, without
    reconciliation: a preview is set even on a payload whose generation
    gate is closed.  Doing it twice is doing it once. *)
Theorem updatePreview_sets_preview_only (nodeId handleId url : string)
    (st : ProceduralState) (c : TransformedPayload) :
  readSlot (payloadRegistry st) nodeId handleId = Some c ->
  readSlot (payloadRegistry (updatePreview nodeId handleId url st))
    nodeId handleId
  = Some (c |> set_previewUrl (Some url))
  /\ updatePreview nodeId handleId url (updatePreview nodeId handleId url st)
     = updatePreview nodeId handleId url st.
Proof.
  intros Hc. assert (Hslot :
    readSlot (payloadRegistry (updatePreview nodeId handleId url st))
      nodeId handleId = Some (c |> set_previewUrl (Some url))).
  { unfold updatePreview. destruct st; simpl in *.
    apply updatePreviewUpdater_slot, Hc. }
  split; [exact Hslot|].
  apply readSlot_lookup in Hslot as (rec & Hn & Hh).
  unfold updatePreview at 1. unfold updatePreviewUpdater at 1.
  unfold JS.get. rewrite Hn, Hh. simpl readAsPayload. cbv iota.
  rewrite bool_decide_eq_true_2 by (destruct c; reflexivity).
  apply setPayloadRegistry_same.
Qed.

(** ** The reviewer path *)

Lemma registerPreviewUpdater_slot (n h url : string)
    (prev : gmap string (gmap string string)) :
  readSlot (registerPreviewUpdater n h url prev) n h = Some url.
Proof.
  unfold registerPreviewUpdater. rewrite slotValue_readSlot.
  destruct (readSlot prev n h) as [old|] eqn:Hold.
  - destruct (String.eqb old url) eqn:Hsame.
    + apply String.eqb_eq in Hsame as ->. exact Hold.
    + apply readSlot_storeSlot.
  - unfold JS.fromPrototype.
    destruct (existsb _ _); [|destruct (String.eqb h "__proto__")];
      apply readSlot_storeSlot.
Qed.

Lemma registerPreviewUpdater_twice (n h url : string)
    (prev : gmap string (gmap string string)) :
  registerPreviewUpdater n h url (registerPreviewUpdater n h url prev)
  = registerPreviewUpdater n h url prev.
Proof.
  unfold registerPreviewUpdater at 1.
  rewrite (slotValue_own _ _ _ _ (registerPreviewUpdater_slot n h url prev)).
  rewrite String.eqb_refl. reflexivity.
Qed.

Lemma registerPreviewUpdater_cases (n h url : string)
    (prev : gmap string (gmap string string)) :
  registerPreviewUpdater n h url prev = prev
  \/ registerPreviewUpdater n h url prev = storeSlot prev n h url.
Proof.
  unfold registerPreviewUpdater.
  destruct (slotValue prev n h) as [old| | |]; auto.
  destruct (String.eqb old url); auto.
Qed.

(** X9. [registerPreviewPayload] keeps the render apart from the payload:
    when it returns, the preview registry holds the render url in the slot
    and is otherwise as before, the payload registry is untouched, and the
    reviewer registry is the one [registerReviewerPayload] gives for the
    same payload, whatever the render url. *)
Theorem registerPreviewPayload_splits (nodeId handleId : string)
    (payload : TransformedPayload) (renderUrl : string)
    (st st' : ProceduralState) :
  registerPreviewPayload nodeId handleId payload renderUrl st = Returns st' ->
  readSlot (previewRegistry st') nodeId handleId = Some renderUrl
  /\ (forall n h, (nodeId, handleId) <> (n, h) ->
        readSlot (previewRegistry st') n h = readSlot (previewRegistry st) n h)
  /\ payloadRegistry st' = payloadRegistry st
  /\ exists st'',
       registerReviewerPayload nodeId handleId payload st = Returns st''
       /\ reviewerRegistry st' = reviewerRegistry st''.
Proof.
  unfold registerPreviewPayload, registerReviewerPayload. simpl.
  destruct (reviewerUpdater _ _ _ _) as [reg|]; simpl; [|discriminate].
  intros [= <-]. simpl. split; [apply registerPreviewUpdater_slot|].
  split; [|split; [reflexivity | eexists; split; reflexivity]].
  intros n h Hne.
  destruct (registerPreviewUpdater_cases nodeId handleId renderUrl
              (previewRegistry st)) as [-> | ->]; [reflexivity|].
  apply readSlot_storeSlot_ne, Hne.
Qed.

Lemma reviewerUpdater_twice (n h : string) (p : TransformedPayload)
    (prev reg : gmap string (gmap string TransformedPayload)) :
  reviewerUpdater n h p prev = Returns reg ->
  reviewerUpdater n h p reg = Returns reg.
Proof.
  unfold reviewerUpdater.
  destruct (reconcileTerminalState _ (readAsPayload (slotValue prev n h)))
    as [r|] eqn:Hr; simpl; [|discriminate].
  intros [= <-]. apply (reconcile_commit_twice _ _ _ _ _ Hr).
Qed.

Lemma setReviewerRegistry_same (st : ProceduralState) :
  setReviewerRegistry (reviewerRegistry st) st = st.
Proof. destruct st; reflexivity. Qed.

(** X10. Change suppression on the reviewer path: when a
    [registerReviewerPayload] or a [registerPreviewPayload] returns, the
    same call made again returns the store unchanged. *)
Theorem reviewer_second_write_is_noop (nodeId handleId : string)
    (payload : TransformedPayload) (renderUrl : string)
    (st : ProceduralState) :
  (forall st1,
     registerReviewerPayload nodeId handleId payload st = Returns st1 ->
     registerReviewerPayload nodeId handleId payload st1 = Returns st1)
  /\ (forall st1,
        registerPreviewPayload nodeId handleId payload renderUrl st
        = Returns st1 ->
        registerPreviewPayload nodeId handleId payload renderUrl st1
        = Returns st1).
Proof.
  split; intros st1.
  - unfold registerReviewerPayload.
    destruct (reviewerUpdater _ _ _ (reviewerRegistry st)) as [reg|] eqn:Hw;
      simpl; [|discriminate].
    intros [= <-]. simpl. rewrite (reviewerUpdater_twice _ _ _ _ _ Hw).
    simpl. destruct st; reflexivity.
  - unfold registerPreviewPayload. simpl.
    destruct (reviewerUpdater _ _ _ (reviewerRegistry st)) as [reg|] eqn:Hw;
      simpl; [|discriminate].
    intros [= <-]. simpl. rewrite (reviewerUpdater_twice _ _ _ _ _ Hw).
    simpl. rewrite registerPreviewUpdater_twice.
    destruct st; reflexivity.
Qed.

(** ** Stale and flush writes, seen from the store *)

(** X11. A stale write is a no-op on the whole store: when the slot holds
    a payload of a newer non-zero generation and the incoming payload of an
    older non-zero one is neither disallowed (by its flag or by the master
    override) nor forced, [registerPayload] returns the store it was
    given. *)
Theorem stale_write_leaves_store (nodeId handleId : string)
    (payload current : TransformedPayload) (masterOverride : option bool)
    (gi gc : Z) (st : ProceduralState) :
  readSlot (payloadRegistry st) nodeId handleId = Some current ->
  masterOverride <> Some false ->
  generationAllowed payload <> Some false ->
  isForced payload && JS.truthyBool (requiresGeneration payload) = false ->
  generationId payload = Some gi ->
  generationId current = Some gc ->
  gi <> 0%Z -> gc <> 0%Z -> (gi < gc)%Z ->
  registerPayload nodeId handleId payload masterOverride st = Returns st.
Proof.
  intros Hcur Hmo Hga Hforced Hgi Hgc Hi0 Hc0 Hlt.
  unfold registerPayload, registerPayloadUpdater.
  rewrite (isFalse_false _ Hmo), (slotValue_own _ _ _ _ Hcur).
  simpl readAsPayload.
  assert (Hr : reconcileTerminalState payload (Some current)
               = Returns current).
  { unfold reconcileTerminalState.
    rewrite (isFalse_false _ Hga), Hforced.
    unfold staleGuard. rewrite Hgi, Hgc, !truthyNum_Some by assumption.
    simpl. apply Z.ltb_lt in Hlt. rewrite Hlt. reflexivity. }
  rewrite Hr. cbn [obind]. rewrite commitPayload_same.
  rewrite setPayloadRegistry_same. reflexivity.
Qed.


(** ** Resolved contexts *)

Lemma sanitizeContext_flushed (c : MappingContext) :
  contextFlushed (sanitizeContext c).
Proof.
  destruct c as [ga ai pu rest]. unfold sanitizeContext, contextFlushed.
  simpl.
  destruct (JS.isFalse ga || JS.isFalse (ai ≫= aiGenerationAllowed))
    eqn:Hdis; simpl.
  - split; intros _; (split; [reflexivity|]);
      destruct ai as [a|]; intros a' [= <-]; reflexivity.
  - apply orb_false_iff in Hdis as [Hga Hai].
    assert (Hga' : ga <> Some false)
      by (intros Hf; apply isFalse_true in Hf; congruence).
    assert (Hai' : ai ≫= aiGenerationAllowed <> Some false)
      by (intros Hf; apply isFalse_true in Hf; congruence).
    destruct ai as [[m gp aga]|]; simpl in *.
    + destruct (bool_decide (m = Some "GEOMETRIC")) eqn:Hgeo; simpl.
      * split; [|intros [?|?]; contradiction].
        intros _. split; [reflexivity|]. intros a' [= <-]. reflexivity.
      * apply bool_decide_eq_false in Hgeo.
        split; intros H; repeat destruct H as [H|H]; contradiction.
    + split; intros H; repeat destruct H as [H|H];
        try contradiction; discriminate.
Qed.

Lemma sanitizeContext_idem (c : MappingContext) :
  sanitizeContext (sanitizeContext c) = sanitizeContext c.
Proof.
  destruct c as [ga ai pu rest]. unfold sanitizeContext. simpl.
  destruct (JS.isFalse ga || JS.isFalse (ai ≫= aiGenerationAllowed))
    eqn:Hdis; simpl.
  - destruct ai as [a|]; reflexivity.
  - destruct ai as [[m gp aga]|]; simpl in *.
    + destruct (bool_decide (m = Some "GEOMETRIC")) eqn:Hgeo; simpl.
      * rewrite Hdis. simpl. rewrite Hgeo. reflexivity.
      * rewrite Hdis. simpl. rewrite Hgeo. reflexivity.
    + rewrite Hdis. reflexivity.
Qed.

Lemma contextJsonEqb_refl (c : MappingContext) : contextJsonEqb c c = true.
Proof.
  unfold contextJsonEqb.
  rewrite !optJsonEqb_refl, String.eqb_refl; try reflexivity; intros x _;
    try apply String.eqb_refl; try apply eqb_reflx.
  unfold aiStrategyJsonEqb.
  rewrite !optJsonEqb_refl; try reflexivity; intros y _;
    try apply String.eqb_refl; apply eqb_reflx.
Qed.

Lemma registerResolvedUpdater_cases (n h : string) (context : MappingContext)
    (prev : gmap string (gmap string MappingContext)) :
  registerResolvedUpdater n h context prev = prev
  \/ registerResolvedUpdater n h context prev
     = storeSlot prev n h (sanitizeContext context).
Proof.
  unfold registerResolvedUpdater.
  match goal with |- context [if ?b then _ else _] => destruct b end; auto.
Qed.

Lemma registerResolvedUpdater_twice (n h : string) (context : MappingContext)
    (prev : gmap string (gmap string MappingContext)) :
  registerResolvedUpdater n h context
    (registerResolvedUpdater n h context prev)
  = registerResolvedUpdater n h context prev.
Proof.
  destruct (registerResolvedUpdater_cases n h context prev) as [Hp|Hs].
  - rewrite Hp. exact Hp.
  - rewrite Hs. unfold registerResolvedUpdater.
    rewrite slotValue_storeSlot, contextJsonEqb_refl. reflexivity.
Qed.

(** X13. The resolved registry only holds flushed contexts: in every state
    the store can reach, a stored context whose generation is disallowed (by
    its own flag or by its strategy's) or whose strategy is geometric has no
    [previewUrl] and an empty generative prompt, and when generation is
    disallowed both flags say so. *)
Theorem resolved_contexts_flushed (st : ProceduralState) :
  reachable st ->
  forall n h ctx,
    readSlot (resolvedRegistry st) n h = Some ctx -> contextFlushed ctx.
Proof.
  induction 1 as [|a st st' _ IH Hstep].
  - intros n h ctx Hp. apply readSlot_lookup in Hp as (rec & Hn & _).
    simpl in Hn. rewrite lookup_empty in Hn. discriminate.
  - destruct a; simpl in Hstep; try (injection Hstep as <-; exact IH).
    + injection Hstep as <-. simpl.
      destruct (registerResolvedUpdater_cases nodeId handleId context
                  (resolvedRegistry st)) as [-> | ->]; [exact IH|].
      intros n h ctx Hp.
      apply readSlot_storeSlot_Some in Hp as [->|Hp];
        [apply sanitizeContext_flushed | eapply IH, Hp].
    + unfold registerPayload in Hstep.
      destruct (registerPayloadUpdater _ _ _ _ _); [|discriminate].
      injection Hstep as <-. exact IH.
    + unfold registerReviewerPayload in Hstep.
      destruct (reviewerUpdater _ _ _ _); [|discriminate].
      injection Hstep as <-. exact IH.
    + unfold registerPreviewPayload in Hstep.
      destruct (reviewerUpdater _ _ _ _); [|discriminate].
      injection Hstep as <-. exact IH.
    + unfold updatePayload in Hstep.
      destruct (updatePayloadUpdater _ _ _ _); [|discriminate].
      injection Hstep as <-. exact IH.
    + injection Hstep as <-. simpl. apply omitNode_inv, IH.
Qed.

(** X14. Sanitation is idempotent, so registering the sanitized form of a
    context is registering the context: [registerResolved] gives the same
    store for both. *)
Theorem registerResolved_sanitized (nodeId handleId : string)
    (context : MappingContext) (st : ProceduralState) :
  sanitizeContext (sanitizeContext context) = sanitizeContext context
  /\ registerResolved nodeId handleId (sanitizeContext context) st
     = registerResolved nodeId handleId context st.
Proof.
  split; [apply sanitizeContext_idem|].
  unfold registerResolved, registerResolvedUpdater.
  rewrite sanitizeContext_idem. reflexivity.
Qed.

(** ** The scalar registries *)

Lemma scalarUpdater_cases {V} `{!Stringify V} (n : string) (v : V)
    (prev : gmap string V) :
  scalarUpdater n v prev = prev \/ scalarUpdater n v prev = <[n := v]> prev.
Proof. unfold scalarUpdater. destruct (bool_decide _); auto. Qed.

Lemma scalarUpdater_image {V} `{!Stringify V} (n : string) (v : V)
    (prev : gmap string V) :
  JS.image stringify (JS.get (scalarUpdater n v prev) n)
  = Some (stringify v).
Proof.
  unfold scalarUpdater.
  destruct (bool_decide _) eqn:Hsame.
  - apply bool_decide_eq_true in Hsame. exact Hsame.
  - unfold JS.get. rewrite lookup_insert_eq. reflexivity.
Qed.

Lemma scalarUpdater_lookup {V} `{!Stringify V} (n : string) (v : V)
    (prev : gmap string V) :
  JS.inherited n = false ->
  exists v', scalarUpdater n v prev !! n = Some v'
             /\ stringify v' = stringify v.
Proof.
  intros Hplain. pose proof (scalarUpdater_image n v prev) as Himg.
  unfold JS.get in Himg.
  destruct (scalarUpdater n v prev !! n) as [v'|].
  - exists v'. split; [reflexivity|]. injection Himg as ->. reflexivity.
  - rewrite fromPrototype_plain in Himg by exact Hplain. discriminate Himg.
Qed.

Lemma scalarUpdater_other {V} `{!Stringify V} (n n' : string) (v : V)
    (prev : gmap string V) :
  n <> n' -> scalarUpdater n v prev !! n' = prev !! n'.
Proof.
  intros Hne.
  destruct (scalarUpdater_cases n v prev) as [-> | ->]; [reflexivity|].
  apply lookup_insert_ne, Hne.
Qed.

Lemma scalarUpdater_twice {V} `{!Stringify V} (n : string) (v : V)
    (prev : gmap string V) :
  scalarUpdater n v (scalarUpdater n v prev) = scalarUpdater n v prev.
Proof.
  unfold scalarUpdater at 1.
  rewrite bool_decide_eq_true_2 by apply scalarUpdater_image.
  reflexivity.
Qed.

Lemma registerAnalysisUpdater_cases (n h : string) (s' : LayoutStrategy)
    (prev : gmap string (gmap string LayoutStrategy)) :
  registerAnalysisUpdater n h s' prev = prev
  \/ registerAnalysisUpdater n h s' prev = storeSlot prev n h s'.
Proof. unfold registerAnalysisUpdater. destruct (bool_decide _); auto. Qed.

Lemma registerAnalysisUpdater_image (n h : string) (s' : LayoutStrategy)
    (prev : gmap string (gmap string LayoutStrategy)) :
  JS.image stringify (slotValue (registerAnalysisUpdater n h s' prev) n h)
  = Some (stringify s').
Proof.
  unfold registerAnalysisUpdater.
  destruct (bool_decide _) eqn:Hsame.
  - apply bool_decide_eq_true in Hsame. exact Hsame.
  - rewrite slotValue_storeSlot. reflexivity.
Qed.

Lemma registerAnalysisUpdater_slot (n h : string) (s' : LayoutStrategy)
    (prev : gmap string (gmap string LayoutStrategy)) :
  JS.inherited h = false ->
  exists v', readSlot (registerAnalysisUpdater n h s' prev) n h = Some v'
             /\ stringify v' = stringify s'.
Proof.
  intros Hplain. pose proof (registerAnalysisUpdater_image n h s' prev) as Himg.
  rewrite (slotValue_plain _ _ _ Hplain) in Himg.
  destruct (readSlot (registerAnalysisUpdater n h s' prev) n h) as [v'|].
  - exists v'. split; [reflexivity|]. injection Himg as ->. reflexivity.
  - discriminate Himg.
Qed.

Lemma registerAnalysisUpdater_twice (n h : string) (s' : LayoutStrategy)
    (prev : gmap string (gmap string LayoutStrategy)) :
  registerAnalysisUpdater n h s' (registerAnalysisUpdater n h s' prev)
  = registerAnalysisUpdater n h s' prev.
Proof.
  unfold registerAnalysisUpdater at 1.
  rewrite bool_decide_eq_true_2 by apply registerAnalysisUpdater_image.
  reflexivity.
Qed.

(** X15. Read after write on the metadata registries, up to the JSON image.
    Under ids that do not name a member of [Object.prototype], after
    [registerTemplate], [registerKnowledge] or [registerAnalysis] the entry
    written to holds a value with the [JSON.stringify] image of the written
    one (the written value, or the stored one when the images were already
    the same).  Whatever the ids, every other entry of the registry written
    to is as before: the entries of the other nodes for the template and the
    knowledge registry, the other slots for the analysis registry. *)
Theorem metadata_read_after_write (nodeId handleId : string)
    (template : TemplateMetadata) (context : KnowledgeContext)
    (strategy : LayoutStrategy) (st : ProceduralState) :
  (JS.inherited nodeId = false ->
   (exists t,
      templateRegistry (registerTemplate nodeId template st) !! nodeId
      = Some t /\ stringify t = stringify template)
   /\ (exists k,
         knowledgeRegistry (registerKnowledge nodeId context st) !! nodeId
         = Some k /\ stringify k = stringify context)
   /\ (JS.inherited handleId = false ->
       exists a,
         readSlot (analysisRegistry
                     (registerAnalysis nodeId handleId strategy st))
           nodeId handleId = Some a
         /\ stringify a = stringify strategy))
  /\ (forall other, nodeId <> other ->
        templateRegistry (registerTemplate nodeId template st) !! other
        = templateRegistry st !! other
        /\ knowledgeRegistry (registerKnowledge nodeId context st) !! other
           = knowledgeRegistry st !! other)
  /\ (forall n h, (nodeId, handleId) <> (n, h) ->
        readSlot (analysisRegistry
                    (registerAnalysis nodeId handleId strategy st)) n h
        = readSlot (analysisRegistry st) n h).
Proof.
  simpl. split; [|split].
  - intros Hn. split; [apply scalarUpdater_lookup, Hn|].
    split; [apply scalarUpdater_lookup, Hn|].
    intros Hh. apply registerAnalysisUpdater_slot, Hh.
  - intros other Hne. split; apply scalarUpdater_other, Hne.
  - intros n h Hne.
    destruct (registerAnalysisUpdater_cases nodeId handleId strategy
                (analysisRegistry st)) as [-> | ->]; [reflexivity|].
    apply readSlot_storeSlot_ne, Hne.
Qed.

(** X16. The metadata writers suppress a repeated write: calling
    [registerTemplate], [registerKnowledge], [registerAnalysis] or
    [registerResolved] a second time with the same arguments gives the
    store of the first call. *)
Theorem metadata_second_write_is_noop (nodeId handleId : string)
    (template : TemplateMetadata) (knowledge : KnowledgeContext)
    (strategy : LayoutStrategy) (context : MappingContext)
    (st : ProceduralState) :
  registerTemplate nodeId template (registerTemplate nodeId template st)
  = registerTemplate nodeId template st
  /\ registerKnowledge nodeId knowledge
       (registerKnowledge nodeId knowledge st)
     = registerKnowledge nodeId knowledge st
  /\ registerAnalysis nodeId handleId strategy
       (registerAnalysis nodeId handleId strategy st)
     = registerAnalysis nodeId handleId strategy st
  /\ registerResolved nodeId handleId context
       (registerResolved nodeId handleId context st)
     = registerResolved nodeId handleId context st.
Proof.
  unfold registerTemplate, registerKnowledge, registerAnalysis,
    registerResolved. simpl.
  rewrite !scalarUpdater_twice, registerAnalysisUpdater_twice,
    registerResolvedUpdater_twice.
  repeat split.
Qed.

(** ** Removal after writes *)

Lemma omitNodeIfPresent_omitNode {V} (n : string) (prev : gmap string V) :
  omitNodeIfPresent n prev = omitNode n prev.
Proof.
  unfold omitNodeIfPresent, omitNode, JS.get.
  destruct (prev !! n) eqn:Hn; [reflexivity|].
  destruct (JS.fromPrototype n); try reflexivity.
  symmetry. apply delete_id, Hn.
Qed.

Lemma omitNode_storeSlot {V} (n h : string) (v : V)
    (prev : gmap string (gmap string V)) :
  omitNode n (storeSlot prev n h v) = omitNode n prev.
Proof. apply delete_insert_eq. Qed.

Lemma omitNode_commitPayload (n h : string)
    (c : JS.Member TransformedPayload) (r : TransformedPayload)
    (prev : gmap string (gmap string TransformedPayload)) :
  omitNode n (commitPayload prev n h c r) = omitNode n prev.
Proof.
  unfold commitPayload.
  destruct (sameImage c r); [reflexivity | apply omitNode_storeSlot].
Qed.

Lemma omitNode_scalarUpdater {V} `{!Stringify V} (n : string) (v : V)
    (prev : gmap string V) :
  omitNode n (scalarUpdater n v prev) = omitNode n prev.
Proof.
  destruct (scalarUpdater_cases n v prev) as [-> | ->];
    [reflexivity | apply delete_insert_eq].
Qed.

Lemma unregisterNode_registries (n : string) (st st' : ProceduralState) :
  omitNode n (psdRegistry st') = omitNode n (psdRegistry st) ->
  omitNode n (templateRegistry st') = omitNode n (templateRegistry st) ->
  omitNode n (resolvedRegistry st') = omitNode n (resolvedRegistry st) ->
  omitNode n (payloadRegistry st') = omitNode n (payloadRegistry st) ->
  omitNode n (reviewerRegistry st') = omitNode n (reviewerRegistry st) ->
  omitNode n (previewRegistry st') = omitNode n (previewRegistry st) ->
  omitNode n (analysisRegistry st') = omitNode n (analysisRegistry st) ->
  omitNode n (knowledgeRegistry st') = omitNode n (knowledgeRegistry st) ->
  globalVersion st' = globalVersion st ->
  unregisterNode n st' = unregisterNode n st.
Proof.
  unfold unregisterNode. rewrite !omitNodeIfPresent_omitNode.
  intros -> -> -> -> -> -> -> -> ->. reflexivity.
Qed.

(** X17. Removing a producer erases whatever it wrote last: for every call
    that writes under a node id and returns, [unregisterNode] of that node
    on the resulting store gives the same store as [unregisterNode] on the
    store before the call. *)
Theorem unregisterNode_erases_write (a : Action) (nodeId : string)
    (st st' : ProceduralState) :
  actionNode a = Some nodeId ->
  perform a st = Returns st' ->
  unregisterNode nodeId st' = unregisterNode nodeId st.
Proof.
  intros Hnode Hstep.
  destruct a; simpl in Hnode; try discriminate;
    injection Hnode as ->; simpl in Hstep.
  - injection Hstep as <-.
    apply unregisterNode_registries; try reflexivity.
    apply delete_insert_eq.
  - injection Hstep as <-.
    apply unregisterNode_registries; try reflexivity.
    apply omitNode_scalarUpdater.
  - injection Hstep as <-.
    apply unregisterNode_registries; try reflexivity.
    simpl.
    destruct (registerResolvedUpdater_cases nodeId handleId context
                (resolvedRegistry st)) as [-> | ->];
      [reflexivity | apply omitNode_storeSlot].
  - unfold registerPayload, registerPayloadUpdater in Hstep.
    destruct (reconcileTerminalState _ _); [|discriminate].
    injection Hstep as <-.
    apply unregisterNode_registries; try reflexivity.
    apply omitNode_commitPayload.
  - unfold registerReviewerPayload, reviewerUpdater in Hstep.
    destruct (reconcileTerminalState _ _); [|discriminate].
    injection Hstep as <-.
    apply unregisterNode_registries; try reflexivity.
    apply omitNode_commitPayload.
  - unfold registerPreviewPayload, reviewerUpdater in Hstep.
    simpl in Hstep.
    destruct (reconcileTerminalState _ _); [|discriminate].
    injection Hstep as <-.
    apply unregisterNode_registries; try reflexivity.
    + apply omitNode_commitPayload.
    + simpl.
      destruct (registerPreviewUpdater_cases nodeId handleId renderUrl
                  (previewRegistry st)) as [-> | ->];
        [reflexivity | apply omitNode_storeSlot].
  - unfold updatePayload, updatePayloadUpdater in Hstep.
    destruct (_ && _ && _).
    { injection Hstep as <-. destruct st; reflexivity. }
    destruct (reconcileTerminalState _ _); [|discriminate].
    injection Hstep as <-.
    apply unregisterNode_registries; try reflexivity.
    apply omitNode_commitPayload.
  - injection Hstep as <-.
    apply unregisterNode_registries; try reflexivity.
    simpl.
    destruct (registerAnalysisUpdater_cases nodeId handleId strategy
                (analysisRegistry st)) as [-> | ->];
      [reflexivity | apply omitNode_storeSlot].
  - injection Hstep as <-.
    apply unregisterNode_registries; try reflexivity.
    apply omitNode_scalarUpdater.
  - injection Hstep as <-.
    apply unregisterNode_registries; try reflexivity.
    simpl. unfold updatePreviewUpdater.
    destruct (payloadRegistry st !! nodeId) as [rec|]; [|reflexivity].
    destruct (readAsPayload (JS.get rec handleId)); [|reflexivity].
    destruct (bool_decide _); [reflexivity | apply delete_insert_eq].
Qed.

(** ** What the reviewer reads *)

Lemma getIncomingPayload_readSlot (id : string) (edges : list Edge.t)
    (reg : gmap string (gmap string TransformedPayload)) (index : N)
    (e : Edge.t) (r : TransformedPayload) :
  incomingEdge id edges index = Some e ->
  readSlot reg (Edge.source e) (sourceKey e) = Some r ->
  getIncomingPayload id edges reg index = Some r.
Proof.
  intros He Hr. apply readSlot_lookup in Hr as (rec & Hn & Hh).
  unfold getIncomingPayload, JS.get. rewrite He, Hn, Hh. reflexivity.
Qed.

(** X18. The reviewer reads what the producer wrote: when an edge leads
    from a producer slot to a reviewer input, and a [registerPayload] to
    that slot returns, [getIncomingPayload] on the new store gives a payload
    with the image of the reconciled one; after [unregisterNode] of the
    producer it gives nothing, and without such an edge it gives nothing. *)
Theorem getIncomingPayload_follows_store (id : string)
    (edges : list Edge.t) (index : N) (st : ProceduralState) :
  (incomingEdge id edges index = None ->
   getIncomingPayload id edges (payloadRegistry st) index = None)
  /\ (forall e,
        incomingEdge id edges index = Some e ->
        getIncomingPayload id edges
          (payloadRegistry (unregisterNode (Edge.source e) st)) index = None
        /\ forall payload st',
             registerPayload (Edge.source e) (sourceKey e) payload None st
             = Returns st' ->
             exists r r',
               getIncomingPayload id edges (payloadRegistry st') index
               = Some r
               /\ reconcileTerminalState payload
                    (readAsPayload
                       (slotValue (payloadRegistry st) (Edge.source e)
                          (sourceKey e))) = Returns r'
               /\ payloadJsonEqb r r' = true).
Proof.
  split.
  - intros He. unfold getIncomingPayload. rewrite He. reflexivity.
  - intros e He. split.
    + unfold getIncomingPayload. rewrite He. simpl.
      unfold omitNode. rewrite lookup_delete_eq. reflexivity.
    + intros payload st'. unfold registerPayload, registerPayloadUpdater.
      simpl.
      destruct (reconcileTerminalState _ _) as [r'|] eqn:Hr;
        [|discriminate].
      simpl. intros [= <-]. simpl.
      destruct (readSlot_commitPayload (payloadRegistry st)
                  (Edge.source e) (sourceKey e) r'
                  (reconcile_nonempty _ _ _ Hr))
        as (r & Hslot & Hsame).
      apply (getIncomingPayload_readSlot id edges _ index e r He) in Hslot.
      destruct Hsame as [->|[_ Heq]].
      * exists r', r'. repeat split; [exact Hslot|].
        apply payloadJsonEqb_refl.
      * exists r, r'. repeat split; assumption.
Qed.

(** ** Overrides that do not apply *)

Lemma updateLayer_ext (ovs ovs' : list LayerOverride.t) (l : Layer.t) :
  (forall i,
     List.find (fun o => String.eqb (LayerOverride.layerId o) i) ovs
     = List.find (fun o => String.eqb (LayerOverride.layerId o) i) ovs') ->
  updateLayer ovs l = updateLayer ovs' l.
Proof.
  intros Hfind.
  induction l as [i n t v o c tr ch IH] using Layer_nested_ind.
  assert (Hch : match ch with
                | Some cs => Some (List.map (updateLayer ovs) cs)
                | None => None
                end
                = match ch with
                  | Some cs => Some (List.map (updateLayer ovs') cs)
                  | None => None
                  end).
  { destruct ch as [cs|]; [|reflexivity]. f_equal.
    specialize (IH cs eq_refl).
    induction IH as [|x xs Hx _ IHxs]; simpl; [reflexivity|].
    rewrite Hx, IHxs. reflexivity. }
  simpl. rewrite Hfind, Hch. reflexivity.
Qed.




Lemma find_app_first {A} (f : A -> bool) (xs ys : list A) :
  List.find f (xs ++ ys)
  = match List.find f xs with
    | Some x => Some x
    | None => List.find f ys
    end.
Proof.
  induction xs as [|x xs IH]; simpl; [reflexivity|].
  destruct (f x); [reflexivity | exact IH].
Qed.

(** X20. The first override of a layer wins: overrides added at the end of
    the list for layer ids that the list already covers change nothing;
    offsets and scales of several overrides of one layer are never
    combined. *)
Theorem first_override_wins (overrides later : list LayerOverride.t)
    (ls : list Layer.t) :
  Forall (fun o =>
            existsb (fun o' => String.eqb (LayerOverride.layerId o')
                                          (LayerOverride.layerId o))
                    overrides = true) later ->
  deepUpdate (overrides ++ later) ls = deepUpdate overrides ls.
Proof.
  intros Hcovered. unfold deepUpdate. apply List.map_ext.
  intros l. apply updateLayer_ext. intros i.
  rewrite find_app_first.
  destruct (List.find _ overrides) as [o|] eqn:Hfirst; [reflexivity|].
  induction Hcovered as [|o later Ho _ IH]; simpl; [reflexivity|].
  destruct (String.eqb (LayerOverride.layerId o) i) eqn:Hid; [|exact IH].
  exfalso. apply String.eqb_eq in Hid. subst i.
  apply List.existsb_exists in Ho as (o' & Hin & Heq).
  apply (List.find_none _ _ Hfirst) in Hin. congruence.
Qed.

(** ** The reviewer's effects *)




Lemma auditEffect_ref (ref : option Z) (p : TransformedPayload) :
  fst (auditEffect ref (Some p)) = generationId p.
Proof.
  unfold auditEffect. destruct ref as [prev|], (generationId p) as [g|];
    simpl; try reflexivity;
    case_bool_decide; simpl; congruence.
Qed.

Lemma auditEffect_same (ref x : option Z) (p : TransformedPayload) :
  ref = None \/ ref = x ->
  generationId p = x ->
  auditEffect ref (Some p) = (x, false).
Proof.
  unfold auditEffect. intros Href ->.
  destruct ref as [prev|].
  - destruct Href as [[=]| ->].
    rewrite bool_decide_eq_false_2 by (intros H; apply H; reflexivity).
    reflexivity.
  - destruct x; reflexivity.
Qed.

(** X22. The audit of a reviewer row follows the generation id: after the
    watching effect has seen a run of payloads, its ref is the generation
    id of the last one; a run of payloads that all carry the same id, seen
    from an unset ref or from a ref holding that id, resets nothing (the
    first id seen never invalidates an audit); a payload whose id differs
    from a set ref, or that has none, resets the audit. *)
Theorem auditRun_tracks_generation (ref : option Z)
    (ps : list TransformedPayload) (last : TransformedPayload) :
  fst (auditRun ref (List.map Some (ps ++ [last]))) = generationId last
  /\ (forall x,
        ref = None \/ ref = x ->
        Forall (fun p => generationId p = x) ps ->
        snd (auditRun ref (List.map Some ps)) = 0)
  /\ (forall g,
        generationId last <> Some g ->
        auditEffect (Some g) (Some last) = (generationId last, true)).
Proof.
  split; [|split].
  - revert ref.
    induction ps as [|p ps IH]; intros ref; cbn [List.map app auditRun].
    + pose proof (auditEffect_ref ref last) as Href.
      destruct (auditEffect ref (Some last)) as [ref' reset].
      exact Href.
    + destruct (auditEffect ref (Some p)) as [ref' reset].
      specialize (IH ref').
      destruct (auditRun ref' _) as [final resets]. exact IH.
  - intros x Href Hall. revert ref Href.
    induction Hall as [|p ps Hp _ IH]; intros ref Href;
      cbn [List.map auditRun]; [reflexivity|].
    rewrite (auditEffect_same _ _ _ Href Hp).
    specialize (IH x (or_intror eq_refl)).
    destruct (auditRun x _) as [final resets]. exact IH.
  - intros g Hne. unfold auditEffect.
    rewrite bool_decide_eq_true_2 by assumption. reflexivity.
Qed.

End Store.

(** ** Instances of the theorems and refutations of the claims as stated

    The opaque types are instantiated with [unit]. *)

Abbreviation Payload0 := (@TransformedPayload unit) (only parsing).
Abbreviation Partial0 := (@PartialPayload unit) (only parsing).
Abbreviation State0 :=
  (@ProceduralState unit unit unit unit unit unit) (only parsing).

(** Generation 1 arriving after generation 2 is rejected. *)
Lemma stale_generation_rejected_witness :
  reconcileTerminalState (ofGeneration 1 : Payload0) (Some (ofGeneration 2))
  = Returns (ofGeneration 2).
Proof.
  apply (stale_generation_rejected (ofGeneration 1) (ofGeneration 2) 1 2);
    vm_compute; congruence.
Defined.

(** C1 as stated fails: an older generation that arrives with generation
    disallowed goes through the hard stop, not the stale guard. *)
Lemma monotonic_generation_preempted :
  ~ (forall (incoming current : Payload0) (gi gc : Z),
       generationId incoming = Some gi ->
       generationId current = Some gc ->
       (gi < gc)%Z ->
       reconcileTerminalState incoming (Some current) = Returns current).
Proof.
  intros H.
  specialize (H disallowedOld (ofGeneration 2) 1%Z 2%Z
                eq_refl eq_refl eq_refl).
  vm_compute in H. discriminate H.
Qed.

(** The spec's scenario: ["0.1"] and the swapped ["0.2"] are kept,
    ["gen-layer-7"] is dropped. *)
Lemma hard_stop_strips_synthetic_witness :
  exists (r : Payload0) ls',
    reconcileTerminalState swappedScenario None = Returns r
    /\ layers r = Some ls'
    /\ ls' = [leafLayer "0.1" "pixel"; leafLayer "0.2" "generative"].
Proof.
  destruct (hard_stop_strips_synthetic (swappedScenario : Payload0) None _
              eq_refl eq_refl)
    as (r & ls' & Hr & Hls & Hfilter & _).
  exists r, ls'. repeat split; assumption.
Defined.

(** C2 as stated fails: the swapped layer ["0.2"] is generative, lacks the
    synthetic-id prefix, and is kept. *)
Lemma generation_disallow_keeps_swapped :
  ~ (forall (incoming : Payload0) current r ls l,
       generationAllowed incoming = Some false ->
       reconcileTerminalState incoming current = Returns r ->
       layers r = Some ls ->
       In l ls ->
       Layer.type l = "generative" ->
       String.prefix "gen-layer-" (Layer.id l) = true).
Proof.
  intros H.
  specialize (H swappedScenario None _ _ (leafLayer "0.2" "generative")
                eq_refl eq_refl eq_refl).
  specialize (H (or_intror (or_introl eq_refl)) eq_refl).
  vm_compute in H. discriminate H.
Qed.

(** The first write of a synthesis start is a fixed point. *)
Lemma reconcile_fixed_point_witness :
  exists r : Payload0,
    reconcileTerminalState synthesisStarted None = Returns r
    /\ reconcileTerminalState r (Some r) = Returns r.
Proof.
  apply (reconcile_fixed_point synthesisStarted None).
  - vm_compute. congruence.
  - left. reflexivity.
Defined.

(** C3 as stated fails: the stale guard returns the stored payload, here an
    idle one that still has a preview, and reconciling it with itself
    flushes the preview. *)
Lemma idempotence_fails_on_stale_result :
  ~ (forall (a : Payload0) b r,
       reconcileTerminalState a b = Returns r ->
       reconcileTerminalState r (Some r) = Returns r).
Proof.
  intros H.
  specialize (H (ofGeneration 1) (Some idleWithPreview) idleWithPreview
                eq_refl).
  vm_compute in H. discriminate H.
Qed.

(** A layout update keeps the generated preview. *)
Lemma layout_update_keeps_preview_witness :
  exists r : Payload0,
    reconcileTerminalState plainLayout (Some generatedPreview) = Returns r
    /\ previewUrl r = Some "A".
Proof.
  apply (layout_update_keeps_preview plainLayout generatedPreview 1);
    vm_compute; congruence.
Defined.

(** C4 as stated fails: an idle layout update flushes the preview. *)
Lemma geometric_preservation_preempted_by_idle :
  ~ (forall (incoming current : Payload0) (g : Z) r,
       generationId incoming = None ->
       generationId current = Some g ->
       reconcileTerminalState incoming (Some current) = Returns r ->
       previewUrl r = previewUrl current).
Proof.
  intros H.
  specialize (H idleLayout generatedPreview 1%Z _ eq_refl eq_refl eq_refl).
  vm_compute in H. discriminate H.
Qed.

(** The scenario on the slot [node-1/out] of a fresh store. *)
Lemma out_of_order_delivery_witness :
  exists (st3 : State0) r,
    andThen
      (andThen
         (registerPayload "node-1" "out" synthesisStarted None initialState)
         (registerPayload "node-1" "out" synthesisDone None))
      (registerPayload "node-1" "out" lateOldGeneration None)
    = Returns st3
    /\ readSlot (payloadRegistry st3) "node-1" "out" = Some r
    /\ previewUrl r = Some "A"
    /\ generationId r = Some 1%Z.
Proof.
  apply (out_of_order_delivery "node-1" "out" initialState).
  vm_compute. reflexivity.
Defined.

(** Writing [{generationId: 2}] again after it has been stored. *)
Lemma second_write_is_noop_witness :
  registerPayload "node-1" "out" (ofGeneration 2) None
    (generation2Stored : State0)
  = Returns generation2Stored.
Proof.
  apply (second_write_is_noop "node-1" "out" (ofGeneration 2) None
           initialState generation2Stored).
  vm_compute. reflexivity.
Defined.

(** C6 as stated fails: when the slot holds a newer generation, neither of
    the two writes of an older one changes the store. *)
Lemma two_stale_writes_change_nothing :
  ~ (forall (st st1 st2 : State0) nodeId handleId payload masterOverride,
       registerPayload nodeId handleId payload masterOverride st
       = Returns st1 ->
       registerPayload nodeId handleId payload masterOverride st1
       = Returns st2 ->
       (st1 <> st /\ st2 = st1) \/ (st1 = st /\ st2 <> st1)).
Proof.
  intros H.
  assert (Hw : registerPayload "node-1" "out" (ofGeneration 1) None
                 (generation2Stored : State0)
               = Returns generation2Stored)
    by (vm_compute; reflexivity).
  destruct (H _ _ _ _ _ _ _ Hw Hw) as [[Hne _]|[_ Hne]];
    apply Hne; reflexivity.
Qed.

(** Removing the only producer of a store. *)
Lemma unregisterNode_purges_witness :
  payloadRegistry (unregisterNode "node-1" (generation2Stored : State0))
    !! "node-1" = None
  /\ globalVersion (unregisterNode "node-1" (generation2Stored : State0))
     = 1%Z.
Proof.
  destruct (unregisterNode_purges "node-1" (generation2Stored : State0))
    as (Hgone & _ & Hversion).
  split; [apply Hgone | exact Hversion].
Defined.



(** The scenario of the spec, the layer being the child of a group. *)
Lemma applyOverrides_nudges_layer_witness :
  exists (r : Payload0) ls',
    applyOverridesToPayload nudgedPayload [nudge] = Returns r
    /\ layers r = Some ls'
    /\ List.map idTree ls' = List.map idTree [nudgedGroup]
    /\ allLayers ls' = List.map (updateLayer [nudge]) (allLayers [nudgedGroup])
    /\ In (updateLayer [nudge] nudgedLayer) (allLayers ls')
    /\ Layer.coords (updateLayer [nudge] nudgedLayer) = Coords.mk 15 5 90 45.
Proof.
  apply (applyOverrides_nudges_layer nudgedPayload [nudge] [nudgedGroup]
           nudgedLayer nudge); try reflexivity.
  simpl. auto.
Defined.

(** ** Instances of the further properties *)

Abbreviation Context0 := (@MappingContext unit) (only parsing).

(** Two writes on the slots [node-1/out] and [node-2/out] of a fresh
    store. *)
Lemma registerPayload_frame_witness :
  readSlot (payloadRegistry (generation2Stored : State0)) "node-2" "out"
  = None.
Proof.
  destruct (registerPayload_frame "node-1" "out" (ofGeneration 2) None
              (initialState : State0) generation2Stored)
    as (Hframe & _).
  - vm_compute. reflexivity.
  - rewrite (Hframe "node-2" "out") by (vm_compute; congruence).
    vm_compute. reflexivity.
Defined.

Lemma registerPayload_commute_witness :
  andThen
    (registerPayload "node-1" "out" (ofGeneration 2) None
       (initialState : State0))
    (registerPayload "node-2" "out" synthesisStarted None)
  = andThen
      (registerPayload "node-2" "out" synthesisStarted None initialState)
      (registerPayload "node-1" "out" (ofGeneration 2) None).
Proof.
  apply (registerPayload_commute "node-1" "out" "node-2" "out").
  vm_compute. congruence.
Defined.

(** The stored payload of the hard-stop scenario is a stripped one. *)
Lemma gate_respected_everywhere_witness :
  reachable (gateClosedStore : State0)
  /\ stripped (strippedScenario : Payload0).
Proof.
  assert (Hreach : reachable (gateClosedStore : State0)).
  { apply (reachable_step (RegisterPayload "node-1" "out" swappedScenario None)
             initialState).
    - apply reachable_init.
    - vm_compute. reflexivity. }
  split; [exact Hreach|].
  destruct (gate_respected_everywhere gateClosedStore Hreach) as [Hpay _].
  apply (Hpay "node-1" "out" strippedScenario); vm_compute; reflexivity.
Defined.

(** A generated payload written with the master gate closed. *)
Lemma master_override_closes_gate_witness :
  match registerPayload "node-1" "out" generatedWithLayers (Some false)
          (initialState : State0) with
  | Returns st' =>
      exists r,
        readSlot (payloadRegistry st') "node-1" "out" = Some r
        /\ generationAllowed r = Some false
        /\ previewUrl r = None
        /\ isConfirmed r = Some false
        /\ isTransient r = Some false
        /\ isSynthesizing r = Some false
        /\ requiresGeneration r = Some false
        /\ status r = Some "success"
        /\ generationId r = Some 1%Z
  | Throws => False
  end.
Proof.
  destruct (registerPayload "node-1" "out" generatedWithLayers (Some false)
              (initialState : State0)) as [st'|] eqn:Hw.
  - exact (master_override_closes_gate "node-1" "out" generatedWithLayers
             initialState st' Hw).
  - vm_compute in Hw. discriminate Hw.
Defined.

(** Two writes, a removal and a refresh: the counter is at 2. *)
Lemma globalVersion_counts_removals_witness :
  match performAll
          [RegisterPayload "node-1" "out" (ofGeneration 2) None;
           UnregisterNode "node-1";
           RegisterPayload "node-1" "out" (ofGeneration 1) None;
           TriggerGlobalRefresh]
          (initialState : State0) with
  | Returns st' => globalVersion st' = 2%Z
  | Throws => False
  end.
Proof.
  destruct (performAll _ (initialState : State0)) as [st'|] eqn:Hrun.
  - exact (globalVersion_counts_removals _ initialState st' Hrun).
  - vm_compute in Hrun. discriminate Hrun.
Defined.

(** [updatePreview] on a fresh store does nothing. *)
Lemma updatePreview_on_empty_slot_witness :
  updatePreview "node-1" "out" "B" (initialState : State0) = initialState.
Proof.
  apply (updatePreview_on_empty_slot "node-1" "out" "B" initialState);
    vm_compute; reflexivity.
Defined.

(** The strategy written to a fresh store is read back. *)
Lemma metadata_read_after_write_witness :
  exists a : unit,
    readSlot (analysisRegistry
                (registerAnalysis "node-1" "out" tt (initialState : State0)))
      "node-1" "out" = Some a
    /\ stringify a = stringify tt.
Proof.
  destruct (metadata_read_after_write "node-1" "out" tt tt tt
              (initialState : State0)) as [Hread _].
  destruct (Hread eq_refl) as (_ & _ & Hslot).
  apply Hslot. reflexivity.
Defined.

(** A status alone, written to an empty slot, is ignored. *)
Lemma updatePayload_is_merged_write_witness :
  updatePayload "node-1" "out" statusOnly (initialState : State0)
  = Returns initialState.
Proof.
  destruct (updatePayload_is_merged_write "node-1" "out" statusOnly
              (initialState : State0)) as [_ Hempty].
  destruct (Hempty eq_refl eq_refl) as [Hnoop _];
    [vm_compute; reflexivity|].
  apply Hnoop; reflexivity.
Defined.

(** The payload a reviewer wrote to a fresh store is polished. *)
Lemma reviewer_registry_polished_plain_witness :
  performAll [RegisterReviewerPayload "reviewer-1" "out" plainLayout]
    (initialState : State0) = Returns reviewedOnce
  /\ isPolished (polishedLayout : Payload0) = Some true.
Proof.
  assert (Hrun :
    performAll [RegisterReviewerPayload "reviewer-1" "out" plainLayout]
      (initialState : State0) = Returns reviewedOnce)
    by (vm_compute; reflexivity).
  split; [exact Hrun|].
  assert (Hplain :
    forallb (@plainReview unit unit unit unit unit unit)
      [RegisterReviewerPayload "reviewer-1" "out" plainLayout] = true)
    by (vm_compute; reflexivity).
  apply (reviewer_registry_polished_plain _ _ Hplain Hrun "reviewer-1" "out"
           (<["out" := polishedLayout]> ∅) polishedLayout);
    vm_compute; reflexivity.
Defined.

(** A preview set on the stripped payload of the hard-stop scenario. *)
Lemma updatePreview_sets_preview_only_witness :
  readSlot
    (payloadRegistry (updatePreview "node-1" "out" "B"
                        (gateClosedStore : State0)))
    "node-1" "out"
  = Some (strippedScenario |> set_previewUrl (Some "B")).
Proof.
  apply (updatePreview_sets_preview_only "node-1" "out" "B" gateClosedStore
           strippedScenario).
  vm_compute. reflexivity.
Defined.

Lemma registerPreviewPayload_splits_witness :
  match registerPreviewPayload "reviewer-1" "out" plainLayout "RENDER"
          (initialState : State0) with
  | Returns st' =>
      readSlot (previewRegistry st') "reviewer-1" "out" = Some "RENDER"
      /\ reviewerRegistry st' = reviewerRegistry (reviewedOnce : State0)
  | Throws => False
  end.
Proof.
  destruct (registerPreviewPayload "reviewer-1" "out" plainLayout "RENDER"
              (initialState : State0)) as [st'|] eqn:Hw.
  - destruct (registerPreviewPayload_splits _ _ _ _ _ _ Hw)
      as (Hpreview & _ & _ & st'' & Hreview & Hsame).
    split; [exact Hpreview|]. rewrite Hsame.
    vm_compute in Hreview. injection Hreview as <-. reflexivity.
  - vm_compute in Hw. discriminate Hw.
Defined.

Lemma reviewer_second_write_is_noop_witness :
  registerReviewerPayload "reviewer-1" "out" plainLayout
    (reviewedOnce : State0)
  = Returns reviewedOnce.
Proof.
  apply (reviewer_second_write_is_noop "reviewer-1" "out" plainLayout ""
           initialState).
  vm_compute. reflexivity.
Defined.

(** Generation 1 written over a stored generation 2. *)
Lemma stale_write_leaves_store_witness :
  registerPayload "node-1" "out" (ofGeneration 1) None
    (generation2Stored : State0)
  = Returns generation2Stored.
Proof.
  apply (stale_write_leaves_store "node-1" "out" (ofGeneration 1)
           (ofGeneration 2
            |> set_isConfirmed (Some false)
            |> set_generationAllowed (Some true))
           None 1 2 generation2Stored);
    vm_compute; congruence.
Defined.


(** A ghost context, once registered, has lost its preview. *)
Lemma resolved_contexts_flushed_witness :
  contextFlushed (sanitizeContext (ghostContext tt : Context0)).
Proof.
  assert (Hreach : reachable
            (registerResolved "node-1" "out" (ghostContext tt)
               (initialState : State0))).
  { apply (reachable_step (RegisterResolved "node-1" "out" (ghostContext tt))
             initialState); [apply reachable_init | reflexivity]. }
  apply (resolved_contexts_flushed _ Hreach "node-1" "out").
  vm_compute. reflexivity.
Defined.

(** A write by [node-1], then its removal. *)
Lemma unregisterNode_erases_write_witness :
  unregisterNode "node-1" (generation2Stored : State0)
  = unregisterNode "node-1" initialState.
Proof.
  apply (unregisterNode_erases_write
           (RegisterPayload "node-1" "out" (ofGeneration 2) None));
    vm_compute; reflexivity.
Defined.

(** The reviewer at the end of [reviewEdge] reads the stored generation. *)
Lemma getIncomingPayload_follows_store_witness :
  getIncomingPayload "reviewer-1" [reviewEdge]
    (payloadRegistry (unregisterNode "node-1" (generation2Stored : State0)))
    0%N
  = None.
Proof.
  destruct (getIncomingPayload_follows_store "reviewer-1" [reviewEdge] 0%N
              (generation2Stored : State0)) as [_ Hedge].
  apply (Hedge reviewEdge). vm_compute. reflexivity.
Defined.


(** A second override of the layer ["0.1"] is not applied. *)
Lemma first_override_wins_witness :
  deepUpdate ([nudge] ++ [secondNudge]) [nudgedGroup]
  = deepUpdate [nudge] [nudgedGroup].
Proof.
  apply (first_override_wins [nudge] [secondNudge] [nudgedGroup]).
  repeat constructor.
Defined.


(** Generation 1 seen three times, then generation 2. *)
Lemma auditRun_tracks_generation_witness :
  snd (auditRun None
         (List.map Some [ofGeneration 1 : Payload0; ofGeneration 1;
                         ofGeneration 1])) = 0
  /\ auditEffect (Some 1%Z) (Some (ofGeneration 2 : Payload0))
     = (Some 2%Z, true).
Proof.
  destruct (auditRun_tracks_generation None
              [ofGeneration 1 : Payload0; ofGeneration 1; ofGeneration 1]
              (ofGeneration 2)) as (_ & Hquiet & Hreset).
  split.
  - apply (Hquiet (Some 1%Z)); [left; reflexivity | repeat constructor].
  - apply (Hreset 1%Z). vm_compute. congruence.
Defined.
